(** * Lunar companion: phase calculator and phase silhouette

    A shallow embedding of [src/services/moonService.ts] (the phase
    calculator [getMoonData]) and of the mask path computed by
    [src/components/MoonVisual.tsx] (the silhouette generator), with the
    properties of both that the specification states.

    Number model.  A JavaScript [number] is embedded as a mathematical real
    ([R]): arithmetic is exact, [Math.cos], [Math.sin] and [Math.PI] are the
    real cosine, sine and pi.  IEEE-754 rounding, NaN and the infinities are
    outside the model.  In doubles the computed numbers differ from the
    model's in the last places: the phase by up to about 1e-9, the age by up
    to about 1e-8 days, the instants of rise and set by up to about 1 ms,
    and [normalize] can return exactly 1.  Ranges, orders and bounds are
    stated with a margin that covers this rounding; where a theorem states
    an equality between computed numbers, it is the equality of the exact
    values.

    Date model.  A [Date] holds an integral time value in milliseconds since
    the Unix epoch; [new Date(x)] truncates [x] toward zero, as TimeClip
    does.  Invalid dates (time value NaN, or a magnitude beyond 8.64e15 ms)
    are outside the model.  The host's time zone is a fixed offset, the value
    [getTimezoneOffset()] returns in minutes; daylight-saving transitions are
    not modelled. *)

From Stdlib Require Import Reals Lra Lia ZArith List Bool.
From Stdlib Require Import String Ascii DecimalString.
Import ListNotations.

Open Scope R_scope.

(** ** JavaScript primitives used by the sources *)

Module Math.

(** [Math.floor]: the greatest integer not above [x]. *)
Definition floor (x : R) : R := IZR (Int_part x).

(** [Math.abs]. *)
Definition abs (x : R) : R := Rabs x.

End Math.

(** [a < b] as a JavaScript boolean. *)
Definition ltb (a b : R) : bool := if Rlt_dec a b then true else false.

(** [a > b] as a JavaScript boolean. *)
Definition gtb (a b : R) : bool := if Rgt_dec a b then true else false.

(** A [Date] object: its time value, in milliseconds since the Unix epoch. *)
Record Date : Set := mkDate { getTime : Z }.

(** TimeClip on a finite number in range: truncation toward zero. *)
Definition TimeClip (x : R) : Z :=
  if Rle_dec 0 x then Int_part x else (- Int_part (- x))%Z.

(** [new Date(x)] for a number [x]. *)
Definition newDate (x : R) : Date := mkDate (TimeClip x).

(** ** src/types.ts *)

Inductive MoonPhaseName : Set :=
| NEW_MOON
| WAXING_CRESCENT
| FIRST_QUARTER
| WAXING_GIBBOUS
| FULL_MOON
| WANING_GIBBOUS
| LAST_QUARTER
| WANING_CRESCENT.

(** [rise], [set] and [transit] are declared [Date | null]: [None] is
    [null]. *)
Record MoonData : Type := mkMoonData {
  phase : R;
  age : R;
  fraction : R;
  name : MoonPhaseName;
  rise : option Date;
  set : option Date;
  transit : option Date;
  distance : R
}.

(** ** src/services/moonService.ts *)

Definition SYNODIC_MONTH : R := 29.53058867.
Definition J1970 : R := 2440587.5.

(** The unused helper [normalize] of the service: floor-based modulo 1.
    Over the reals its value is below 1; in doubles the subtraction can
    round up to 1, as for a tiny negative argument. *)
Definition normalize (value : R) : R :=
  let value := value - Math.floor value in
  let value := if ltb value 0 then value + 1 else value in
  value.

(** Lines 54-64 of [getMoonData]: the cascade that names the phase. *)
Definition phaseNameOfAge (age : R) : MoonPhaseName :=
  if ltb age 1.84566 then NEW_MOON
  else if ltb age 5.53699 then WAXING_CRESCENT
  else if ltb age 9.22831 then FIRST_QUARTER
  else if ltb age 12.91963 then WAXING_GIBBOUS
  else if ltb age 16.61096 then FULL_MOON
  else if ltb age 20.30228 then WANING_GIBBOUS
  else if ltb age 23.99361 then LAST_QUARTER
  else if ltb age 27.68493 then WANING_CRESCENT
  else NEW_MOON.

(** [normalizeDate]: returns its first argument. *)
Definition normalizeDate (d base : Date) : Date := d.

Section Host.

(** What [getTimezoneOffset()] returns on this host: UTC minus local time,
    in minutes. *)
Variable timezoneOffset : Z.

Definition getTimezoneOffset (d : Date) : Z := timezoneOffset.

(** [d.setHours(0, 0, 0, 0)] on a copy of [d]: local midnight of the local
    calendar day of [d]. *)
Definition setHours0 (d : Date) : Date :=
  let localTime := (getTime d - timezoneOffset * 60000)%Z in
  let localMidnight := (localTime - localTime mod 86400000)%Z in
  mkDate (localMidnight + timezoneOffset * 60000)%Z.

Definition toJulian (date : Date) : R :=
  IZR (getTime date) / 86400000 - IZR (getTimezoneOffset date) / 1440
  + 2440587.5.

Definition getMoonData (date : Date) (lat lng : R) : MoonData :=
  let jd := toJulian date in
  let D := jd - 2451545.0 in
  let L := 218.316 + 13.176396 * D in
  let M := 134.963 + 13.064993 * D in
  let F := 93.272 + 13.229350 * D in
  let l := 6.289 * sin (M * PI / 180) in
  let longitude := L + l in
  let knownNewMoonJD := 2460321.998 in
  let daysSinceNew := jd - knownNewMoonJD in
  let cycles := daysSinceNew / SYNODIC_MONTH in
  let currentCyclePhase := cycles - Math.floor cycles in
  let age := currentCyclePhase * SYNODIC_MONTH in
  let phase := currentCyclePhase in
  let angle := phase * 2 * PI in
  let fraction := 0.5 * (1 - cos angle) in
  let name := phaseNameOfAge age in
  let dayStart := setHours0 date in
  let riseOffsetHours := 6 + age * 0.8 in
  let setOffsetHours := 18 + age * 0.8 in
  let rise := newDate (IZR (getTime dayStart) + riseOffsetHours * 3600000) in
  let set := newDate (IZR (getTime dayStart) + setOffsetHours * 3600000) in
  let transit := newDate ((IZR (getTime rise) + IZR (getTime set)) / 2) in
  {| phase := phase;
     age := age;
     fraction := fraction;
     name := name;
     rise := Some (normalizeDate rise dayStart);
     set := Some (normalizeDate set dayStart);
     transit := Some (normalizeDate transit dayStart);
     distance := 384400 |}.

End Host.

(** ** src/components/MoonVisual.tsx *)

(** The commands of an SVG path that the component writes: [M x y] and
    [A rx ry x-axis-rotation large-arc-flag sweep-flag x y].  The empty
    string is the empty list. *)
Inductive PathCommand : Type :=
| M (x y : R)
| A (rx ry xAxisRotation : R) (largeArc sweep : bool) (x y : R).

(** The path [d] that [MoonVisual] computes for the mask of the lit part.
    The rest of the component is markup around it; [size] does not enter
    [d]. *)
Definition MoonVisual (phase : R) : list PathCommand :=
  let r := 48 in
  let cx := 50 in
  let cy := 50 in
  let terminatorWidth := r * cos (phase * 2 * PI) in
  let d :=
    if ltb phase 0.5 then
      if ltb phase 0.25 then
        [M 50 2; A 48 48 0 false true 50 98;
         A (Math.abs terminatorWidth) 48 0 false false 50 2]
      else
        [M 50 2; A 48 48 0 false true 50 98;
         A (Math.abs terminatorWidth) 48 0 false true 50 2]
    else
      if ltb phase 0.75 then
        [M 50 2; A 48 48 0 false false 50 98;
         A (Math.abs terminatorWidth) 48 0 false true 50 2]
      else
        [M 50 2; A 48 48 0 false false 50 98;
         A (Math.abs terminatorWidth) 48 0 false false 50 2] in
  let d := if ltb phase 0.01 || gtb phase 0.99 then [] else d in
  let d :=
    if ltb (Math.abs (phase - 0.5)) 0.01 then
      [M 50 2; A 48 48 0 true true 50 98; A 48 48 0 true true 50 2]
    else d in
  d.

(** ** Reading an outline

    What the path means once drawn, after the SVG rules for elliptical arcs.
    Every arc the component writes joins the two ends of the vertical axis of
    its ellipse (the end points are [2 * ry] apart on one vertical line), so
    it is one half of that ellipse whatever its large-arc flag says, and the
    sweep flag alone picks the half: the angle grows with the sweep flag set,
    which on a surface whose y axis points down is the clockwise turn. *)

Definition Point : Type := (R * R)%type.

(** The point a command leaves the pen at. *)
Definition endPoint (c : PathCommand) : Point :=
  match c with
  | M x y => (x, y)
  | A _ _ _ _ _ x y => (x, y)
  end.

(** Starting from [cur], every arc of [d] is a half ellipse between the ends
    of its vertical axis, with radii that are not negative. *)
Fixpoint halfEllipses (cur : Point) (d : list PathCommand) : Prop :=
  match d with
  | [] => True
  | M x y :: d' => halfEllipses (x, y) d'
  | A rx ry rot _ _ x y :: d' =>
      rot = 0 /\ x = fst cur /\ Rabs (y - snd cur) = 2 * ry /\
      0 <= rx /\ 0 <= ry /\ halfEllipses (x, y) d'
  end.

(** The point the pen is at after [d], starting from [cur]. *)
Definition penAfter (cur : Point) (d : list PathCommand) : Point :=
  fold_left (fun _ c => endPoint c) d cur.

(** A valid closed outline: nothing at all, or a move to a point followed by
    half-ellipse arcs that lead back to that point. *)
Definition closedOutline (d : list PathCommand) : Prop :=
  match d with
  | [] => True
  | M x y :: arcs =>
      arcs <> [] /\ halfEllipses (x, y) arcs /\ penAfter (x, y) arcs = (x, y)
  | A _ _ _ _ _ _ _ :: _ => False
  end.

Inductive Side : Set := LeftSide | RightSide.

(** The side of the vertical axis a half-ellipse arc passes on, when it is
    drawn from height [fromY] to its end point: clockwise from the top goes
    by the right, clockwise from the bottom by the left. *)
Definition arcSide (fromY : R) (c : PathCommand) : option Side :=
  match c with
  | M _ _ => None
  | A _ _ _ _ sweep _ y =>
      Some (if ltb fromY y
            then (if sweep then RightSide else LeftSide)
            else (if sweep then LeftSide else RightSide))
  end.

(** The outer arc of a two-arc outline, and the side of the disc it runs
    along. *)
Definition outerArcSide (d : list PathCommand) : option Side :=
  match d with
  | M _ y0 :: c :: _ => arcSide y0 c
  | _ => None
  end.

(** The terminator arc of a two-arc outline, and the side it bulges to. *)
Definition terminatorSide (d : list PathCommand) : option Side :=
  match d with
  | M _ _ :: c1 :: c2 :: _ => arcSide (snd (endPoint c1)) c2
  | _ => None
  end.

(** The horizontal semi-axis of the terminator arc. *)
Definition terminatorSemiAxis (d : list PathCommand) : option R :=
  match d with
  | M _ _ :: _ :: A rx _ _ _ _ _ _ :: _ => Some rx
  | _ => None
  end.

(** Green's formula, half of the line integral of [x dy - y dx], over one
    half-ellipse arc: [PI * rx * ry / 2] when drawn clockwise, the opposite
    when drawn counter-clockwise (the terms in the end points cancel around
    a closed path and are left out). *)
Definition sweptArea (c : PathCommand) : R :=
  match c with
  | M _ _ => 0
  | A rx ry _ _ sweep _ _ =>
      if sweep then PI * rx * ry / 2 else - (PI * rx * ry / 2)
  end.

(** The area a closed outline of half-ellipse arcs encloses. *)
Definition enclosedArea (d : list PathCommand) : R :=
  Rabs (fold_right (fun c acc => sweptArea c + acc) 0 d).

Definition fullDiscArea : R := PI * 48 * 48.
Definition halfDiscArea : R := PI * 48 * 48 / 2.

(** The lit area as a function of the phase. *)
Definition litArea (phase : R) : R := enclosedArea (MoonVisual phase).

(** The full-disc path of the full-moon special case. *)
Definition fullDiscPath : list PathCommand :=
  [M 50 2; A 48 48 0 true true 50 98; A 48 48 0 true true 50 2].

(** The four general branches of [MoonVisual], under the names its comments
    give them. *)
Inductive Regime : Set :=
| WaxingCrescent
| WaxingGibbous
| WaningGibbous
| WaningCrescent.

(** The quarter of [[0,1)] a phase falls in. *)
Definition regimeOf (phase : R) : Regime :=
  if ltb phase 0.25 then WaxingCrescent
  else if ltb phase 0.5 then WaxingGibbous
  else if ltb phase 0.75 then WaningGibbous
  else WaningCrescent.

(** The sweep flags each branch writes: outer arc, then terminator. *)
Definition regimeFlags (g : Regime) : bool * bool :=
  match g with
  | WaxingCrescent => (true, false)
  | WaxingGibbous => (true, true)
  | WaningGibbous => (false, true)
  | WaningCrescent => (false, false)
  end.

(** The two-arc outline of a branch, for a terminator of semi-axis [a]. *)
Definition regimePath (g : Regime) (a : R) : list PathCommand :=
  [M 50 2;
   A 48 48 0 false (fst (regimeFlags g)) 50 98;
   A a 48 0 false (snd (regimeFlags g)) 50 2].

(** ** The phase-name bands as the specification lists them

    Nine half-open intervals of the age, in days; the first and the last
    both carry the new moon. *)
Definition specPhaseNameBands : list (R * R * MoonPhaseName) :=
  [ (0, 1.84566, NEW_MOON);
    (1.84566, 5.53699, WAXING_CRESCENT);
    (5.53699, 9.22831, FIRST_QUARTER);
    (9.22831, 12.91963, WAXING_GIBBOUS);
    (12.91963, 16.61096, FULL_MOON);
    (16.61096, 20.30228, WANING_GIBBOUS);
    (20.30228, 23.99361, LAST_QUARTER);
    (23.99361, 27.68493, WANING_CRESCENT);
    (27.68493, 29.53058867, NEW_MOON) ].

(** [age] lies in the band [b]. *)
Definition inBand (age : R) (b : R * R * MoonPhaseName) : Prop :=
  fst (fst b) <= age < snd (fst b).

(** ** The instants behind rise and set, before [new Date] truncates them *)

(** The number handed to [new Date] for the rise time. *)
Definition riseInstant (timezoneOffset : Z) (date : Date) : R :=
  IZR (getTime (setHours0 timezoneOffset date))
  + (6 + age (getMoonData timezoneOffset date 0 0) * 0.8) * 3600000.

(** The number handed to [new Date] for the set time. *)
Definition setInstant (timezoneOffset : Z) (date : Date) : R :=
  IZR (getTime (setHours0 timezoneOffset date))
  + (18 + age (getMoonData timezoneOffset date 0 0) * 0.8) * 3600000.

(** The cycle count that [getMoonData] reduces modulo 1. *)
Definition cyclesSinceNewMoon (timezoneOffset : Z) (date : Date) : R :=
  (toJulian timezoneOffset date - 2460321.998) / SYNODIC_MONTH.

(** A command stays on the disc of radius 48 about (50, 50): it ends at one
    of the two poles, and an arc has the vertical semi-axis 48 and a
    horizontal semi-axis from 0 to 48. *)
Definition onDisc (c : PathCommand) : Prop :=
  match c with
  | M x y => x = 50 /\ y = 2
  | A rx ry _ _ _ x y =>
      0 <= rx <= 48 /\ ry = 48 /\ x = 50 /\ (y = 2 \/ y = 98)
  end.

(** ** src/App.tsx: moving the current date *)

(** [a === b] on phase names. *)
Definition MoonPhaseName_eqb (a b : MoonPhaseName) : bool :=
  match a, b with
  | NEW_MOON, NEW_MOON
  | WAXING_CRESCENT, WAXING_CRESCENT
  | FIRST_QUARTER, FIRST_QUARTER
  | WAXING_GIBBOUS, WAXING_GIBBOUS
  | FULL_MOON, FULL_MOON
  | WANING_GIBBOUS, WANING_GIBBOUS
  | LAST_QUARTER, LAST_QUARTER
  | WANING_CRESCENT, WANING_CRESCENT => true
  | _, _ => false
  end.

(** [d.setDate(d.getDate() + days)] for a whole number of days: the same
    local time of day, [days] local calendar days on.  On a host with a
    fixed offset that is [days] times 86400000 ms. *)
Definition setDatePlus (d : Date) (days : Z) : Date :=
  mkDate (getTime d + days * 86400000)%Z.

(** [handleDateChange]: the new value of the state [currentDate]. *)
Definition handleDateChange (currentDate : Date) (days : Z) : Date :=
  let d := currentDate in
  let d := setDatePlus d days in
  d.

(** The [for] loop of [jumpToPhase] with [n] rounds left, on the date object
    [d] it keeps advancing: the date handed to [setCurrentDate], if any. *)
Fixpoint jumpToPhase_loop (timezoneOffset : Z) (lat lng : R)
    (targetPhase : MoonPhaseName) (n : nat) (d : Date) : option Date :=
  match n with
  | O => None
  | S n' =>
      let d := setDatePlus d 1 in
      let data := getMoonData timezoneOffset d lat lng in
      if MoonPhaseName_eqb (name data) targetPhase then Some d
      else jumpToPhase_loop timezoneOffset lat lng targetPhase n' d
  end.

(** [jumpToPhase]: the value of the state [currentDate] afterwards. *)
Definition jumpToPhase (timezoneOffset : Z) (currentDate : Date)
    (lat lng : R) (targetPhase : MoonPhaseName) : Date :=
  match
    jumpToPhase_loop timezoneOffset lat lng targetPhase 30 currentDate
  with
  | Some d => d
  | None => currentDate
  end.

(** ** JavaScript strings, truthiness and promises

    A string is embedded as its sequence of bytes in UTF-8; only emptiness,
    concatenation and ASCII prefixes are looked at. *)

(** The line feed of a template literal. *)
Definition LF : string := String (ascii_of_nat 10) EmptyString.

(** The truthiness of a string: every string but the empty one. *)
Definition truthyString (s : string) : bool :=
  match s with
  | EmptyString => false
  | String _ _ => true
  end.

(** The truthiness of a value of type [string | null] or
    [string | undefined]; [None] is [null] or [undefined]. *)
Definition truthy (v : option string) : bool :=
  match v with
  | Some s => truthyString s
  | None => false
  end.

(** [v || fallback] for a string or undefined [v] and a string. *)
Definition orString (v : option string) (fallback : string) : string :=
  match v with
  | Some s => if truthyString s then s else fallback
  | None => fallback
  end.

(** [v || undefined] for a string or null [v]. *)
Definition orUndefined (v : option string) : option string :=
  if truthy v then v else None.

(** [n.toString()] for an integral number. *)
Definition Number_toString (n : Z) : string :=
  NilZero.string_of_int (Z.to_int n).

(** What awaiting a promise gives: the value it resolves to, or a throw. *)
Inductive Settled (T : Type) : Type :=
| Resolved (value : T)
| Rejected.

Arguments Resolved {T} value.
Arguments Rejected {T}.

(** [s] without the literal prefix [p], if it starts with it. *)
Fixpoint stripPrefix (p s : string) : option string :=
  match p with
  | EmptyString => Some s
  | String a p' =>
      match s with
      | EmptyString => None
      | String b s' => if Ascii.eqb a b then stripPrefix p' s' else None
      end
  end.

(** ** src/types.ts: the display names, locations and observation logs *)

(** The string value of each member of the enum. *)
Definition MoonPhaseName_value (n : MoonPhaseName) : string :=
  match n with
  | NEW_MOON => "新月"
  | WAXING_CRESCENT => "蛾眉月"
  | FIRST_QUARTER => "上弦月"
  | WAXING_GIBBOUS => "盈凸月"
  | FULL_MOON => "满月"
  | WANING_GIBBOUS => "亏凸月"
  | LAST_QUARTER => "下弦月"
  | WANING_CRESCENT => "残月"
  end.

Module LocationData.

Record t : Type := mk {
  lat : R;
  lng : R;
  name : string
}.

End LocationData.

Module ObservationLog.

(** The optional fields are [None] when the property is undefined. *)
Record t : Type := mk {
  id : string;
  date : string;
  location : LocationData.t;
  weather : string;
  notes : string;
  imageUrl : option string;
  aiAnalysis : option string;
  moonPhaseName : option string
}.

End ObservationLog.

(** ** src/services/geminiService.ts *)

Module GeminiService.

(** The argument of [ai.models.generateContent]: the model, the contents (a
    prompt, or an inline image followed by a prompt), and whether the
    config asks for JSON with the location schema. *)
Inductive Part : Type :=
| InlineData (mimeType data : string)
| TextPart (text : string).

Inductive Contents : Type :=
| Prompt (text : string)
| Parts (parts : list Part).

Record Request : Type := mkRequest {
  model : string;
  contents : Contents;
  jsonLocationSchema : bool
}.

(** The surroundings of the service: [process.env.API_KEY], and the remote
    model, which for a key and a request resolves to a response with its
    [text], a string or undefined, or rejects. *)
Record Host : Type := mkHost {
  API_KEY : option string;
  generateContent : string -> Request -> Settled (option string)
}.

(** [getAIClient]: the client, which holds the key, or a throw. *)
Definition getAIClient (host : Host) : Settled string :=
  match API_KEY host with
  | Some apiKey => if truthyString apiKey then Resolved apiKey else Rejected
  | None => Rejected
  end.

(** [base64Image.replace] of the match of
    [/^data:image\/(png|jpeg|jpg);base64,/], if any, by the empty string. *)
Definition cleanBase64 (base64Image : string) : string :=
  match stripPrefix "data:image/png;base64," base64Image with
  | Some rest => rest
  | None =>
      match stripPrefix "data:image/jpeg;base64," base64Image with
      | Some rest => rest
      | None =>
          match stripPrefix "data:image/jpg;base64," base64Image with
          | Some rest => rest
          | None => base64Image
          end
      end
  end.

(** The template literal [prompt] of [analyzeObservation]. *)
Definition analysisPrompt (date location : string) : string :=
  (LF ++
   "      你是一位资深的天文学家和天文摄影评论家。" ++ LF ++
   "      我在 " ++ location ++ " 于 " ++ date ++
   " 拍摄了这次月相观测照片。" ++ LF ++
   "      " ++ LF ++
   "      请分析这张照片：" ++ LF ++
   "      1. 确认这是否为月亮，并识别当前可见的月相。" ++ LF ++
   "      2. 请给这张照片的拍摄质量打分（1-10分，基于业余观测标准）。" ++ LF ++
   "      3. 提供一段关于此月相的简短科学事实或充满诗意的描述。" ++ LF ++
   "      " ++ LF ++
   "      请保持回复简洁（100字以内）。" ++ LF ++
   "    ")%string.

(** The request [analyzeObservation] sends. *)
Definition analysisRequest (base64Image date location : string) : Request :=
  {| model := "gemini-2.5-flash";
     contents :=
       Parts [InlineData "image/jpeg" (cleanBase64 base64Image);
              TextPart (analysisPrompt date location)];
     jsonLocationSchema := false |}.

(** [analyzeObservation], awaited: the string the promise resolves to.  The
    calls to [console.error] in the handlers are left out. *)
Definition analyzeObservation (host : Host)
    (base64Image date location : string) : string :=
  match getAIClient host with
  | Resolved ai =>
      match
        generateContent host ai (analysisRequest base64Image date location)
      with
      | Resolved text => orString text "无法生成分析结果。"
      | Rejected => "暂时无法分析图片，请检查网络或 API Key 设置。"
      end
  | Rejected => "暂时无法分析图片，请检查网络或 API Key 设置。"
  end.

(** The request [getMoonTrivia] sends. *)
Definition triviaRequest (phaseName : string) : Request :=
  {| model := "gemini-2.5-flash";
     contents :=
       Prompt ("请告诉我关于“" ++ phaseName ++
               "”的一个简短且有趣的科学事实（一句话）。")%string;
     jsonLocationSchema := false |}.

(** [getMoonTrivia], awaited. *)
Definition getMoonTrivia (host : Host) (phaseName : string) : string :=
  match getAIClient host with
  | Resolved ai =>
      match generateContent host ai (triviaRequest phaseName) with
      | Resolved text => orString text "月球每年大约远离地球 3.8 厘米。"
      | Rejected => "月球每年大约远离地球 3.8 厘米。"
      end
  | Rejected => "月球每年大约远离地球 3.8 厘米。"
  end.

End GeminiService.

(** ** The form for a new log (LogForm) *)

Module LogForm.

(** The state of the component, one field per [useState]. *)
Record State : Type := mkState {
  date : string;
  time : string;
  weather : string;
  loc : string;
  notes : string;
  image : option string;
  isAnalyzing : bool;
  aiResult : option string
}.

(** [handleImageUpload], once the reader has finished: [file] is the data
    URL read from the chosen file, [None] when no file was chosen. *)
Definition handleImageUpload (st : State) (file : option string) : State :=
  match file with
  | Some result =>
      {| date := date st; time := time st; weather := weather st;
         loc := loc st; notes := notes st;
         image := Some result;
         isAnalyzing := isAnalyzing st;
         aiResult := None |}
  | None => st
  end.

(** [handleAIAnalysis], run to its end with no other event in between. *)
Definition handleAIAnalysis (host : GeminiService.Host) (st : State) : State :=
  match image st with
  | Some img =>
      if truthyString img then
        let result :=
          GeminiService.analyzeObservation host img (date st) (loc st) in
        {| date := date st; time := time st; weather := weather st;
           loc := loc st;
           notes := if truthyString (notes st) then notes st else result;
           image := image st;
           isAnalyzing := false;
           aiResult := Some result |}
      else st
  | None => st
  end.

(** [handleSubmit]: the log handed to [onSave]; [now] is [Date.now()]. *)
Definition handleSubmit (now : Z) (st : State) : ObservationLog.t :=
  {| ObservationLog.id := Number_toString now;
     ObservationLog.date := (date st ++ "T" ++ time st)%string;
     ObservationLog.location :=
       {| LocationData.lat := 0; LocationData.lng := 0;
          LocationData.name := loc st |};
     ObservationLog.weather := weather st;
     ObservationLog.notes :=
       (notes st ++
        match aiResult st with
        | Some r =>
            if truthyString r
            then LF ++ LF ++ "[AI 智能分析]: " ++ r
            else EmptyString
        | None => EmptyString
        end)%string;
     ObservationLog.imageUrl := orUndefined (image st);
     ObservationLog.aiAnalysis := orUndefined (aiResult st);
     ObservationLog.moonPhaseName := None |}.

End LogForm.

(** ** src/App.tsx: the log book *)

Inductive View : Set := ViewDashboard | ViewLogs | ViewAddLog.

(** The part of the state of [App] that saving a log touches, and the item
    [lunaLogs] of the local storage: the list whose JSON text is stored
    there, [None] while the item is absent. *)
Record LogBook : Type := mkLogBook {
  logs : list ObservationLog.t;
  view : View;
  lunaLogs : option (list ObservationLog.t)
}.

(** [handleSaveLog]. *)
Definition handleSaveLog (st : LogBook) (log : ObservationLog.t) : LogBook :=
  let updatedLogs := log :: logs st in
  {| logs := updatedLogs;
     view := ViewLogs;
     lunaLogs := Some updatedLogs |}.

(** The effect that recomputes the snapshot when the date or the location
    changes: the new values of the states [moonData] and [trivia]. *)
Definition updateMoonData (timezoneOffset : Z) (host : GeminiService.Host)
    (currentDate : Date) (location : LocationData.t) : MoonData * string :=
  let data :=
    getMoonData timezoneOffset currentDate
      (LocationData.lat location) (LocationData.lng location) in
  (data, GeminiService.getMoonTrivia host (MoonPhaseName_value (name data))).

(** ** Comparisons *)

Lemma ltb_true (a b : R) : a < b -> ltb a b = true.
Proof. intros H. unfold ltb. destruct (Rlt_dec a b); [reflexivity | contradiction]. Qed.

Lemma ltb_false (a b : R) : b <= a -> ltb a b = false.
Proof. intros H. unfold ltb. destruct (Rlt_dec a b); [lra | reflexivity]. Qed.

Lemma gtb_true (a b : R) : a > b -> gtb a b = true.
Proof. intros H. unfold gtb. destruct (Rgt_dec a b); [reflexivity | contradiction]. Qed.

Lemma gtb_false (a b : R) : a <= b -> gtb a b = false.
Proof. intros H. unfold gtb. destruct (Rgt_dec a b); [lra | reflexivity]. Qed.

Lemma abs_lt (x e : R) : Math.abs x < e <-> - e < x < e.
Proof.
  unfold Math.abs, Rabs. destruct (Rcase_abs x); lra.
Qed.

(** Rewrites every comparison of the goal whose outcome [lra] can settle. *)
Ltac settle_cmp :=
  repeat match goal with
  | |- context [ltb ?a ?b] =>
      first [ rewrite (ltb_true a b) by first [lra | apply abs_lt; lra]
            | rewrite (ltb_false a b)
                by first [lra | apply Rnot_lt_le; rewrite abs_lt; lra] ]
  | |- context [gtb ?a ?b] =>
      first [ rewrite (gtb_true a b) by lra
            | rewrite (gtb_false a b) by lra ]
  end.

(** ** The branches of [MoonVisual] *)

Lemma MoonVisual_new_moon (p : R) :
  p < 0.01 \/ 0.99 < p -> MoonVisual p = [].
Proof.
  intros H. unfold MoonVisual.
  assert (Hf : ltb (Math.abs (p - 0.5)) 0.01 = false).
  { apply ltb_false. apply Rnot_lt_le. rewrite abs_lt. lra. }
  rewrite Hf.
  destruct H as [H | H].
  - rewrite (ltb_true p 0.01) by lra. reflexivity.
  - rewrite (gtb_true p 0.99) by lra. rewrite orb_true_r. reflexivity.
Qed.

Lemma MoonVisual_full_moon (p : R) :
  0.49 < p < 0.51 -> MoonVisual p = fullDiscPath.
Proof.
  intros H. unfold MoonVisual.
  rewrite (ltb_true (Math.abs (p - 0.5)) 0.01) by (apply abs_lt; lra).
  reflexivity.
Qed.

Lemma MoonVisual_general (p : R) :
  0.01 <= p <= 0.49 \/ 0.51 <= p <= 0.99 ->
  MoonVisual p =
    [M 50 2;
     A 48 48 0 false (ltb p 0.5) 50 98;
     A (Math.abs (48 * cos (p * 2 * PI))) 48 0 false
       (negb (ltb p 0.25) && ltb p 0.75) 50 2].
Proof.
  intros H. unfold MoonVisual.
  assert (Hf : ltb (Math.abs (p - 0.5)) 0.01 = false).
  { apply ltb_false. apply Rnot_lt_le. rewrite abs_lt. lra. }
  rewrite Hf.
  rewrite (ltb_false p 0.01) by lra. rewrite (gtb_false p 0.99) by lra.
  simpl orb. cbv iota.
  unfold ltb.
  destruct (Rlt_dec p 0.5), (Rlt_dec p 0.25), (Rlt_dec p 0.75);
    try reflexivity; lra.
Qed.

(** ** The sign of the cosine, quarter by quarter *)

Lemma cos_turn_first_quarter (p : R) :
  0 <= p <= 0.25 -> 0 <= cos (p * 2 * PI).
Proof.
  intros H. pose proof PI_RGT_0 as HPI.
  apply cos_ge_0; nra.
Qed.

Lemma cos_turn_middle_half (p : R) :
  0.25 <= p <= 0.75 -> cos (p * 2 * PI) <= 0.
Proof.
  intros H. pose proof PI_RGT_0 as HPI.
  apply cos_le_0; nra.
Qed.

Lemma cos_turn_last_quarter (p : R) :
  0.75 <= p <= 1 -> 0 <= cos (p * 2 * PI).
Proof.
  intros H. pose proof PI_RGT_0 as HPI.
  apply cos_ge_0_3PI2; nra.
Qed.

Lemma semi_axis_range (p : R) :
  0 <= Math.abs (48 * cos (p * 2 * PI)) <= 48.
Proof.
  unfold Math.abs. pose proof (COS_bound (p * 2 * PI)) as [Hl Hu].
  split; [apply Rabs_pos |].
  unfold Rabs. destruct (Rcase_abs _); lra.
Qed.

(** ** The lit area in the general branches *)

Lemma litArea_waxing (p : R) :
  0.01 <= p <= 0.49 ->
  litArea p = halfDiscArea * (1 - cos (p * 2 * PI)).
Proof.
  intros H. unfold litArea. rewrite MoonVisual_general by lra.
  rewrite (ltb_true p 0.5), (ltb_true p 0.75) by lra.
  pose proof PI_RGT_0 as HPI.
  pose proof (COS_bound (p * 2 * PI)) as [Hl Hu].
  unfold enclosedArea, halfDiscArea, Math.abs. simpl.
  destruct (Rlt_dec p 0.25) as [Hq | Hq].
  - rewrite (ltb_true p 0.25) by lra. simpl.
    pose proof (cos_turn_first_quarter p ltac:(lra)) as Hc.
    rewrite (Rabs_right (48 * _)) by lra.
    rewrite Rabs_right by nra. lra.
  - rewrite (ltb_false p 0.25) by lra. simpl.
    pose proof (cos_turn_middle_half p ltac:(lra)) as Hc.
    rewrite (Rabs_left1 (48 * _)) by lra.
    rewrite Rabs_right by nra. lra.
Qed.

Lemma litArea_waning (p : R) :
  0.51 <= p <= 0.99 ->
  litArea p = halfDiscArea * (1 + cos (p * 2 * PI)).
Proof.
  intros H. unfold litArea. rewrite MoonVisual_general by lra.
  rewrite (ltb_false p 0.5), (ltb_false p 0.25) by lra.
  pose proof PI_RGT_0 as HPI.
  pose proof (COS_bound (p * 2 * PI)) as [Hl Hu].
  unfold enclosedArea, halfDiscArea, Math.abs. simpl.
  destruct (Rlt_dec p 0.75) as [Hq | Hq].
  - rewrite (ltb_true p 0.75) by lra. simpl.
    pose proof (cos_turn_middle_half p ltac:(lra)) as Hc.
    rewrite (Rabs_left1 (48 * _)) by lra.
    rewrite Rabs_left1 by nra. lra.
  - rewrite (ltb_false p 0.75) by lra. simpl.
    pose proof (cos_turn_last_quarter p ltac:(lra)) as Hc.
    rewrite (Rabs_right (48 * _)) by lra.
    rewrite Rabs_left1 by nra. lra.
Qed.

Lemma litArea_full_moon (p : R) :
  0.49 < p < 0.51 -> litArea p = fullDiscArea.
Proof.
  intros H. unfold litArea. rewrite MoonVisual_full_moon by lra.
  pose proof PI_RGT_0 as HPI.
  unfold enclosedArea, fullDiscArea, fullDiscPath. simpl.
  rewrite Rabs_right by nra. lra.
Qed.

Lemma litArea_new_moon (p : R) :
  p < 0.01 \/ 0.99 < p -> litArea p = 0.
Proof.
  intros H. unfold litArea. rewrite MoonVisual_new_moon by exact H.
  unfold enclosedArea. simpl. apply Rabs_R0.
Qed.

(** ** Floor and the floor-based modulo *)

Lemma floor_bounds (x : R) : Math.floor x <= x < Math.floor x + 1.
Proof.
  unfold Math.floor. destruct (base_Int_part x) as [Hl Hu]. lra.
Qed.

Lemma floor_unique (x : R) (z : Z) :
  IZR z <= x < IZR z + 1 -> Math.floor x = IZR z.
Proof.
  intros H. unfold Math.floor. f_equal. symmetry.
  apply Int_part_spec. lra.
Qed.

Lemma floor_shift (x : R) (k : Z) :
  Math.floor (x + IZR k) = Math.floor x + IZR k.
Proof.
  pose proof (floor_bounds x) as Hx.
  unfold Math.floor in *. rewrite <- plus_IZR.
  apply (floor_unique (x + IZR k) (Int_part x + k)).
  rewrite plus_IZR. lra.
Qed.

Lemma normalize_eq (x : R) : normalize x = x - Math.floor x.
Proof.
  unfold normalize. pose proof (floor_bounds x) as Hx.
  rewrite ltb_false by lra. reflexivity.
Qed.

Lemma normalize_range (x : R) : 0 <= normalize x < 1.
Proof.
  rewrite normalize_eq. pose proof (floor_bounds x) as Hx. lra.
Qed.

Lemma normalize_shift (x : R) (k : Z) : normalize (x + IZR k) = normalize x.
Proof.
  rewrite !normalize_eq, floor_shift. lra.
Qed.

Lemma normalize_fixed (p : R) : 0 <= p < 1 -> normalize p = p.
Proof.
  intros H. rewrite normalize_eq, (floor_unique p 0) by lra. lra.
Qed.

(** ** Every outline is closed *)

Lemma closedOutline_two_arcs (a : R) (l1 s1 l2 s2 : bool) :
  0 <= a ->
  closedOutline
    [M 50 2; A 48 48 0 l1 s1 50 98; A a 48 0 l2 s2 50 2].
Proof.
  intros Ha. simpl.
  repeat split; simpl; try lra; try discriminate.
  - replace (98 - 2) with 96 by lra. rewrite Rabs_right; lra.
  - replace (2 - 98) with (- 96) by lra. rewrite Rabs_left; lra.
Qed.

Lemma MoonVisual_cases (p : R) :
  (p < 0.01 \/ 0.99 < p) \/ 0.49 < p < 0.51 \/
  (0.01 <= p <= 0.49 \/ 0.51 <= p <= 0.99).
Proof.
  destruct (Rlt_dec p 0.01); [lra |].
  destruct (Rlt_dec 0.99 p); [lra |].
  destruct (Rlt_dec 0.49 p); [| lra].
  destruct (Rlt_dec p 0.51); lra.
Qed.

Lemma MoonVisual_closed (p : R) : closedOutline (MoonVisual p).
Proof.
  destruct (MoonVisual_cases p) as [H | [H | H]].
  - rewrite MoonVisual_new_moon by exact H. exact I.
  - rewrite MoonVisual_full_moon by exact H.
    apply closedOutline_two_arcs. lra.
  - rewrite MoonVisual_general by exact H.
    apply closedOutline_two_arcs. apply semi_axis_range.
Qed.

(** ** The silhouette generator: the specification's claims *)

(** C3.  For every phase in [0, 0.01) or (0.99, 1) the generator returns the
    empty outline, and for every phase in (0.49, 0.51) it returns the
    boundary of the full disc: a closed outline of two half circles of
    radius 48 that encloses the whole disc.  Both come from the two guards
    at the end of [MoonVisual], which override the general branches: no
    general branch writes the empty path or the full-disc path, whatever the
    semi-axis of its terminator. *)
Theorem singular_bands (p : R) :
  (0 <= p < 0.01 \/ 0.99 < p < 1 -> MoonVisual p = []) /\
  (0.49 < p < 0.51 ->
   MoonVisual p = fullDiscPath /\
   closedOutline (MoonVisual p) /\
   enclosedArea (MoonVisual p) = fullDiscArea) /\
  (forall (g : Regime) (a : R),
     regimePath g a <> [] /\ regimePath g a <> fullDiscPath).
Proof.
  split; [| split].
  - intros H. apply MoonVisual_new_moon. lra.
  - intros H. split; [apply MoonVisual_full_moon; exact H |].
    split; [apply MoonVisual_closed |].
    apply (litArea_full_moon p H).
  - intros g a. unfold regimePath, fullDiscPath.
    split; intros H; discriminate H.
Qed.

Lemma singular_bands_witness :
  MoonVisual 0 = [] /\ MoonVisual 0.995 = [] /\ MoonVisual 0.5 = fullDiscPath.
Proof.
  split; [| split].
  - apply (proj1 (singular_bands 0)). lra.
  - apply (proj1 (singular_bands 0.995)). lra.
  - apply (proj1 (proj2 (singular_bands 0.5))). lra.
Defined.

(** C1, as the specification states it, fails: the generator does not
    normalise its argument.  The phase 0.125 + 1 gets the empty outline,
    the phase 0.125 = (0.125 + 1) mod 1 a crescent. *)
Lemma no_normalisation_counterexample :
  MoonVisual (0.125 + IZR 1) <> MoonVisual (normalize (0.125 + IZR 1)).
Proof.
  rewrite normalize_shift, normalize_fixed by lra.
  rewrite MoonVisual_new_moon by lra.
  rewrite MoonVisual_general by lra.
  discriminate.
Qed.

(** C1, amended.  The generator classifies the phase it is given and leaves
    normalisation to its caller: the outline is empty exactly when the
    phase is below 0.01 or above 0.99, so every phase outside [0,1) gets
    the empty outline, whatever it is modulo 1.  In every case the outline
    is a valid closed one (possibly empty or the full disc). *)
Theorem outline_of_any_phase (p : R) :
  closedOutline (MoonVisual p) /\
  (p < 0 \/ 1 <= p -> MoonVisual p = []) /\
  (MoonVisual p = [] <-> p < 0.01 \/ 0.99 < p).
Proof.
  split; [apply MoonVisual_closed |].
  split; [intros H; apply MoonVisual_new_moon; lra |].
  split.
  - intros H. destruct (MoonVisual_cases p) as [Hc | [Hc | Hc]].
    + exact Hc.
    + rewrite MoonVisual_full_moon in H by exact Hc. discriminate H.
    + rewrite MoonVisual_general in H by exact Hc. discriminate H.
  - apply MoonVisual_new_moon.
Qed.

Lemma outline_of_any_phase_witness :
  1 <= 1.125 /\ MoonVisual 1.125 = [].
Proof.
  split; [lra |].
  apply (proj1 (proj2 (outline_of_any_phase 1.125))). right. lra.
Defined.

Lemma MoonVisual_regime (p : R) :
  0.01 <= p <= 0.49 \/ 0.51 <= p <= 0.99 ->
  MoonVisual p = regimePath (regimeOf p) (48 * Rabs (cos (2 * PI * p))).
Proof.
  intros H. rewrite MoonVisual_general by exact H.
  unfold regimePath, regimeOf, Math.abs.
  replace (2 * PI * p) with (p * 2 * PI) by ring.
  rewrite (Rabs_mult 48), (Rabs_right 48) by lra.
  unfold ltb.
  destruct (Rlt_dec p 0.25), (Rlt_dec p 0.5), (Rlt_dec p 0.75);
    try reflexivity; lra.
Qed.

Lemma cos_eighth_turn : 0 < cos (0.125 * 2 * PI) < 1.
Proof.
  pose proof PI_RGT_0 as HPI.
  assert (Hc : 0 < cos (0.125 * 2 * PI)) by (apply cos_gt_0; lra).
  assert (Hs : 0 < sin (0.125 * 2 * PI)) by (apply sin_gt_0; lra).
  pose proof (sin2_cos2 (0.125 * 2 * PI)) as Hsc. unfold Rsqr in Hsc.
  split; [exact Hc | nra].
Qed.

Lemma cos_three_eighths_turn : -1 < cos (0.375 * 2 * PI) < 0.
Proof.
  pose proof PI_RGT_0 as HPI.
  assert (Hc : cos (0.375 * 2 * PI) < 0) by (apply cos_lt_0; lra).
  assert (Hs : 0 < sin (0.375 * 2 * PI)) by (apply sin_gt_0; lra).
  pose proof (sin2_cos2 (0.375 * 2 * PI)) as Hsc. unfold Rsqr in Hsc.
  split; [nra | exact Hc].
Qed.

(** C2.  Outside the epsilon bands the outline is the two-arc path of one of
    four branches, picked by the quarter of [0,1) the phase lies in alone,
    and the terminator's horizontal semi-axis is [48 * |cos (2 * PI * p)|],
    never negative.  At phase 0.125 the outer arc runs along the right
    hemisphere, the terminator bulges right, and the enclosed area is
    strictly less than half the disc; at phase 0.375 the outer arc runs
    along the right hemisphere, the terminator bulges left, and the area is
    strictly between half the disc and the full disc. *)
Theorem general_regimes (p : R) :
  (0.01 <= p <= 0.49 \/ 0.51 <= p <= 0.99 ->
   MoonVisual p = regimePath (regimeOf p) (48 * Rabs (cos (2 * PI * p))) /\
   terminatorSemiAxis (MoonVisual p) = Some (48 * Rabs (cos (2 * PI * p))) /\
   0 <= 48 * Rabs (cos (2 * PI * p))) /\
  (outerArcSide (MoonVisual 0.125) = Some RightSide /\
   terminatorSide (MoonVisual 0.125) = Some RightSide /\
   litArea 0.125 < halfDiscArea) /\
  (outerArcSide (MoonVisual 0.375) = Some RightSide /\
   terminatorSide (MoonVisual 0.375) = Some LeftSide /\
   halfDiscArea < litArea 0.375 < fullDiscArea).
Proof.
  pose proof PI_RGT_0 as HPI.
  split; [| split].
  - intros H. rewrite (MoonVisual_regime p H).
    split; [reflexivity |]. split; [reflexivity |].
    pose proof (Rabs_pos (cos (2 * PI * p))). lra.
  - rewrite MoonVisual_regime by lra.
    unfold regimeOf. rewrite (ltb_true 0.125 0.25) by lra.
    cbn [regimePath regimeFlags fst snd outerArcSide terminatorSide
         arcSide endPoint].
    rewrite (ltb_true 2 98), (ltb_false 98 2) by lra.
    split; [reflexivity |]. split; [reflexivity |].
    rewrite litArea_waxing by lra.
    pose proof cos_eighth_turn as Hc. unfold halfDiscArea. nra.
  - rewrite MoonVisual_regime by lra.
    unfold regimeOf.
    rewrite (ltb_false 0.375 0.25), (ltb_true 0.375 0.5) by lra.
    cbn [regimePath regimeFlags fst snd outerArcSide terminatorSide
         arcSide endPoint].
    rewrite (ltb_true 2 98), (ltb_false 98 2) by lra.
    split; [reflexivity |]. split; [reflexivity |].
    rewrite litArea_waxing by lra.
    pose proof cos_three_eighths_turn as Hc.
    unfold halfDiscArea, fullDiscArea. nra.
Qed.

Lemma general_regimes_witness :
  (0.01 <= 0.125 <= 0.49 \/ 0.51 <= 0.125 <= 0.99) /\
  MoonVisual 0.125 =
    regimePath WaxingCrescent (48 * Rabs (cos (2 * PI * 0.125))).
Proof.
  assert (Hd : 0.01 <= 0.125 <= 0.49 \/ 0.51 <= 0.125 <= 0.99) by lra.
  split; [exact Hd |].
  replace WaxingCrescent with (regimeOf 0.125)
    by (unfold regimeOf; rewrite ltb_true by lra; reflexivity).
  exact (proj1 (proj1 (general_regimes 0.125) Hd)).
Defined.

(** Taken point by point, the enclosed area is continuous at 0.25, 0.5 and
    0.75: at 0.25 and 0.75 the two branches meet at half the disc, and 0.5
    lies inside the band of the full-moon special case, where the area is
    constant.  This says nothing of the change from the full-moon band to
    the branch that follows it, which is the subject of
    [area_jump_past_full_moon]. *)
Lemma area_continuous_at_boundaries :
  (continuity_pt litArea 0.25 /\ litArea 0.25 = halfDiscArea) /\
  (continuity_pt litArea 0.5 /\ litArea 0.5 = fullDiscArea) /\
  (continuity_pt litArea 0.75 /\ litArea 0.75 = halfDiscArea).
Proof.
  pose proof PI_RGT_0 as HPI.
  split; [| split]; split.
  - apply (continuity_pt_locally_ext
             (fun p => halfDiscArea * (1 - cos (p * 2 * PI))) litArea 0.1).
    + lra.
    + intros y Hy. unfold Rdist in Hy. apply abs_lt in Hy.
      symmetry. apply litArea_waxing. lra.
    + reg.
  - rewrite litArea_waxing by lra.
    replace (0.25 * 2 * PI) with (PI / 2) by lra.
    rewrite cos_PI2. lra.
  - apply (continuity_pt_locally_ext (fun _ => fullDiscArea) litArea 0.01).
    + lra.
    + intros y Hy. unfold Rdist in Hy. apply abs_lt in Hy.
      symmetry. apply litArea_full_moon. lra.
    + reg.
  - apply litArea_full_moon. lra.
  - apply (continuity_pt_locally_ext
             (fun p => halfDiscArea * (1 + cos (p * 2 * PI))) litArea 0.1).
    + lra.
    + intros y Hy. unfold Rdist in Hy. apply abs_lt in Hy.
      symmetry. apply litArea_waning. lra.
    + reg.
  - rewrite litArea_waning by lra.
    replace (0.75 * 2 * PI) with (3 * (PI / 2)) by lra.
    rewrite cos_3PI2. lra.
Qed.

(** The band edges 0.49 and 0.51 are not among the boundaries above, and the
    area is not continuous there: up to 0.51 it is the full disc, from 0.51
    on the branch for the waning gibbous moon draws its terminator on the
    left, the side of its outer arc, which leaves less than half the disc. *)
Remark area_at_band_edge :
  (forall p, 0.49 < p < 0.51 -> litArea p = fullDiscArea) /\
  terminatorSide (MoonVisual 0.51) = outerArcSide (MoonVisual 0.51) /\
  litArea 0.51 < halfDiscArea.
Proof.
  pose proof PI_RGT_0 as HPI.
  split; [exact litArea_full_moon |]. split.
  - rewrite MoonVisual_general by lra.
    cbn [outerArcSide terminatorSide arcSide endPoint snd].
    rewrite (ltb_true 2 98), (ltb_false 98 2) by lra.
    rewrite (ltb_false 0.51 0.5), (ltb_false 0.51 0.25),
      (ltb_true 0.51 0.75) by lra.
    reflexivity.
  - rewrite litArea_waning by lra.
    assert (Hc : cos (0.51 * 2 * PI) < 0) by (apply cos_lt_0; lra).
    unfold halfDiscArea. nra.
Qed.

(** C8.  The code at the failing input.  Across the full moon the area is
    not continuous.  Up to 0.51 the outline is the full disc.  At 0.51 the
    branch for the waning gibbous moon takes over and draws its terminator
    by the left, the side of its outer arc, where its comment says by the
    right; what it encloses is less than half the disc, so the area is not
    continuous at 0.51.  The formulas of the two branches next to 0.5 do
    not agree at 0.5 either: the one for the waxing gibbous moon gives the
    full disc there, the one for the waning gibbous moon gives 0. *)
Theorem area_jump_past_full_moon :
  litArea 0.5 = fullDiscArea /\
  litArea 0.5099 = fullDiscArea /\
  outerArcSide (MoonVisual 0.51) = Some LeftSide /\
  terminatorSide (MoonVisual 0.51) = Some LeftSide /\
  litArea 0.51 < halfDiscArea /\
  ~ continuity_pt litArea 0.51 /\
  enclosedArea (regimePath WaxingGibbous (48 * Rabs (cos (2 * PI * 0.5)))) =
    fullDiscArea /\
  enclosedArea (regimePath WaningGibbous (48 * Rabs (cos (2 * PI * 0.5)))) =
    0.
Proof.
  pose proof PI_RGT_0 as HPI.
  assert (Hhalf : 0 < halfDiscArea) by (unfold halfDiscArea; nra).
  assert (Hjump : litArea 0.51 < halfDiscArea).
  { rewrite litArea_waning by lra.
    assert (Hc : cos (0.51 * 2 * PI) < 0) by (apply cos_lt_0; lra).
    unfold halfDiscArea in *. nra. }
  assert (Hcos : 48 * Rabs (cos (2 * PI * 0.5)) = 48).
  { replace (2 * PI * 0.5) with PI by lra.
    rewrite cos_PI, Rabs_left by lra. lra. }
  split; [apply litArea_full_moon; lra |].
  split; [apply litArea_full_moon; lra |].
  split; [| split].
  - rewrite MoonVisual_general by lra.
    cbn [outerArcSide arcSide].
    rewrite (ltb_true 2 98), (ltb_false 0.51 0.5) by lra. reflexivity.
  - rewrite MoonVisual_general by lra.
    cbn [terminatorSide arcSide endPoint snd].
    rewrite (ltb_false 98 2), (ltb_false 0.51 0.25), (ltb_true 0.51 0.75)
      by lra.
    reflexivity.
  - split; [exact Hjump |]. split; [| split].
    + intros Hcont.
      destruct (Hcont halfDiscArea Hhalf) as (alp & Halp & Hnear).
      set (x := 0.51 - Rmin alp 0.01 / 2).
      assert (Hmin : 0 < Rmin alp 0.01 <= 0.01).
      { split; [apply Rmin_glb_lt; lra | apply Rmin_r]. }
      assert (Hmin' : Rmin alp 0.01 <= alp) by apply Rmin_l.
      assert (Hx : 0.49 < x < 0.51) by (unfold x; lra).
      specialize (Hnear x).
      assert (Hd : D_x no_cond 0.51 x /\ Rdist x 0.51 < alp).
      { split.
        - split; [exact I | lra].
        - unfold Rdist. apply abs_lt. unfold x. lra. }
      apply Hnear in Hd. simpl in Hd. unfold Rdist in Hd.
      apply abs_lt in Hd.
      rewrite (litArea_full_moon x Hx) in Hd.
      unfold fullDiscArea, halfDiscArea in *. lra.
    + rewrite Hcos. unfold enclosedArea, regimePath, fullDiscArea.
      cbn [regimeFlags fst snd fold_right sweptArea].
      rewrite Rabs_right by nra. lra.
    + rewrite Hcos. unfold enclosedArea, regimePath.
      cbn [regimeFlags fst snd fold_right sweptArea].
      replace (0 + (- (PI * 48 * 48 / 2) + (PI * 48 * 48 / 2 + 0))) with 0
        by lra.
      apply Rabs_R0.
Qed.

(** ** Truncation to whole milliseconds *)

Lemma Int_part_unique (x : R) (z : Z) :
  IZR z <= x < IZR z + 1 -> Int_part x = z.
Proof. intros H. symmetry. apply Int_part_spec. lra. Qed.

Lemma Int_part_IZR (z : Z) : Int_part (IZR z) = z.
Proof. apply Int_part_unique. lra. Qed.

Lemma Int_part_shift (x : R) (n : Z) :
  Int_part (x + IZR n) = (Int_part x + n)%Z.
Proof.
  apply Int_part_unique. rewrite plus_IZR.
  destruct (base_Int_part x). lra.
Qed.

Lemma Int_part_opp (x : R) : (-1 <= Int_part x + Int_part (- x) <= 0)%Z.
Proof.
  destruct (base_Int_part x) as [H1 H2].
  destruct (base_Int_part (- x)) as [H3 H4].
  split.
  - assert (H : (-2 < Int_part x + Int_part (- x))%Z); [| lia].
    apply lt_IZR. rewrite plus_IZR. lra.
  - apply le_IZR. rewrite plus_IZR. lra.
Qed.

Lemma TimeClip_nonneg (x : R) (z : Z) :
  0 <= x -> IZR z <= x < IZR z + 1 -> TimeClip x = z.
Proof.
  intros H0 H. unfold TimeClip.
  destruct (Rle_dec 0 x); [| contradiction].
  apply Int_part_unique. exact H.
Qed.

Lemma TimeClip_neg (x : R) (z : Z) :
  x < 0 -> IZR z - 1 < x <= IZR z -> TimeClip x = z.
Proof.
  intros H0 H. unfold TimeClip.
  destruct (Rle_dec 0 x); [lra |].
  rewrite (Int_part_unique (- x) (- z)); [lia |].
  rewrite opp_IZR. lra.
Qed.

Lemma TimeClip_IZR (z : Z) : TimeClip (IZR z) = z.
Proof.
  destruct (Rle_dec 0 (IZR z)).
  - apply TimeClip_nonneg; lra.
  - apply TimeClip_neg; lra.
Qed.

(** Truncation moves a number by less than one, toward zero. *)
Lemma TimeClip_near (x : R) : Rabs (IZR (TimeClip x) - x) < 1.
Proof.
  unfold TimeClip. destruct (Rle_dec 0 x).
  - destruct (base_Int_part x). apply abs_lt. lra.
  - destruct (base_Int_part (- x)). rewrite opp_IZR. apply abs_lt. lra.
Qed.

(** Adding whole milliseconds commutes with truncation as long as the sign
    does not change. *)
Lemma TimeClip_shift (x : R) (n : Z) :
  (0 <= n)%Z -> 0 <= x \/ x + IZR n <= 0 ->
  TimeClip (x + IZR n) = (TimeClip x + n)%Z.
Proof.
  intros Hn H. apply IZR_le in Hn.
  unfold TimeClip.
  destruct (Rle_dec 0 x), (Rle_dec 0 (x + IZR n)).
  - apply Int_part_shift.
  - lra.
  - replace (x + IZR n) with (IZR 0) by lra.
    replace (- x) with (IZR n) by lra.
    rewrite !Int_part_IZR. lia.
  - replace (- (x + IZR n)) with (- x + IZR (- n)) by (rewrite opp_IZR; lra).
    rewrite Int_part_shift. lia.
Qed.

(** Across zero one millisecond may be lost. *)
Lemma TimeClip_shift_bounds (x : R) (n : Z) :
  (0 <= n)%Z ->
  (TimeClip x + n - 1 <= TimeClip (x + IZR n) <= TimeClip x + n)%Z.
Proof.
  intros Hn.
  destruct (Rle_dec 0 x) as [H0 | H0].
  { rewrite TimeClip_shift by (try assumption; left; exact H0). lia. }
  destruct (Rle_dec (x + IZR n) 0) as [H1 | H1].
  { rewrite TimeClip_shift by (try assumption; right; exact H1). lia. }
  unfold TimeClip.
  destruct (Rle_dec 0 x); [contradiction |].
  destruct (Rle_dec 0 (x + IZR n)); [| lra].
  rewrite Int_part_shift. pose proof (Int_part_opp x). lia.
Qed.

(** Half of a whole number, cut to a whole number. *)
Lemma TimeClip_half (n : Z) :
  (-1 <= 2 * TimeClip (IZR n / 2) - n <= 1)%Z /\
  (Z.even n = true -> (2 * TimeClip (IZR n / 2) = n)%Z).
Proof.
  split.
  - pose proof (TimeClip_near (IZR n / 2)) as H. apply abs_lt in H.
    assert (H1 : (-2 < 2 * TimeClip (IZR n / 2) - n)%Z)
      by (apply lt_IZR; rewrite minus_IZR, mult_IZR; lra).
    assert (H2 : (2 * TimeClip (IZR n / 2) - n < 2)%Z)
      by (apply lt_IZR; rewrite minus_IZR, mult_IZR; lra).
    lia.
  - intros He. apply Z.even_spec in He. destruct He as (k & ->).
    replace (IZR (2 * k) / 2) with (IZR k) by (rewrite mult_IZR; lra).
    rewrite TimeClip_IZR. reflexivity.
Qed.

(** ** The start of the calendar day *)

Lemma setHours0_spec (timezoneOffset : Z) (d : Date) :
  let dayStart := getTime (setHours0 timezoneOffset d) in
  (dayStart <= getTime d < dayStart + 86400000)%Z /\
  ((dayStart - timezoneOffset * 60000) mod 86400000 = 0)%Z.
Proof.
  unfold setHours0. cbn [getTime].
  set (localTime := (getTime d - timezoneOffset * 60000)%Z).
  pose proof (Z.mod_pos_bound localTime 86400000 ltac:(lia)) as Hm.
  split; [lia |].
  replace (localTime - localTime mod 86400000 + timezoneOffset * 60000
           - timezoneOffset * 60000)%Z
    with (86400000 * (localTime / 86400000))%Z.
  - rewrite Z.mul_comm. apply Z_mod_mult.
  - pose proof (Z.div_mod localTime 86400000 ltac:(lia)). lia.
Qed.

(** ** The phase calculator *)

Lemma phaseNameOfAge_band (a : R) :
  0 <= a < 29.53058867 ->
  exists b,
    In b specPhaseNameBands /\ inBand a b /\ phaseNameOfAge a = snd b /\
    forall b', In b' specPhaseNameBands -> inBand a b' -> b' = b.
Proof.
  intros Ha.
  assert (Hcases :
    a < 1.84566 \/ 1.84566 <= a < 5.53699 \/ 5.53699 <= a < 9.22831 \/
    9.22831 <= a < 12.91963 \/ 12.91963 <= a < 16.61096 \/
    16.61096 <= a < 20.30228 \/ 20.30228 <= a < 23.99361 \/
    23.99361 <= a < 27.68493 \/ 27.68493 <= a).
  { destruct (Rlt_dec a 1.84566); [lra |].
    destruct (Rlt_dec a 5.53699); [lra |].
    destruct (Rlt_dec a 9.22831); [lra |].
    destruct (Rlt_dec a 12.91963); [lra |].
    destruct (Rlt_dec a 16.61096); [lra |].
    destruct (Rlt_dec a 20.30228); [lra |].
    destruct (Rlt_dec a 23.99361); [lra |].
    destruct (Rlt_dec a 27.68493); lra. }
  unfold phaseNameOfAge.
  decompose [or] Hcases; clear Hcases; settle_cmp; cbv iota;
    match goal with
    | |- exists b, _ /\ _ /\ ?n = _ /\ _ =>
        match n with
        | NEW_MOON =>
            first
              [ exists (0, 1.84566, NEW_MOON);
                split; [cbn; tauto |]; split; [unfold inBand; cbn; lra |]
              | exists (27.68493, 29.53058867, NEW_MOON);
                split; [cbn; tauto |]; split; [unfold inBand; cbn; lra |] ]
        | WAXING_CRESCENT => exists (1.84566, 5.53699, WAXING_CRESCENT);
            split; [cbn; tauto |]; split; [unfold inBand; cbn; lra |]
        | FIRST_QUARTER => exists (5.53699, 9.22831, FIRST_QUARTER);
            split; [cbn; tauto |]; split; [unfold inBand; cbn; lra |]
        | WAXING_GIBBOUS => exists (9.22831, 12.91963, WAXING_GIBBOUS);
            split; [cbn; tauto |]; split; [unfold inBand; cbn; lra |]
        | FULL_MOON => exists (12.91963, 16.61096, FULL_MOON);
            split; [cbn; tauto |]; split; [unfold inBand; cbn; lra |]
        | WANING_GIBBOUS => exists (16.61096, 20.30228, WANING_GIBBOUS);
            split; [cbn; tauto |]; split; [unfold inBand; cbn; lra |]
        | LAST_QUARTER => exists (20.30228, 23.99361, LAST_QUARTER);
            split; [cbn; tauto |]; split; [unfold inBand; cbn; lra |]
        | WANING_CRESCENT => exists (23.99361, 27.68493, WANING_CRESCENT);
            split; [cbn; tauto |]; split; [unfold inBand; cbn; lra |]
        end
    end;
    (split; [reflexivity |]);
    intros b' Hin Hb; unfold specPhaseNameBands in Hin; cbn [In] in Hin;
    decompose [or] Hin; subst; unfold inBand in Hb; cbn [fst snd] in Hb;
    try reflexivity; try contradiction; lra.
Qed.

Section Calculator.

Variable timezoneOffset : Z.
Variable date : Date.
Variables lat lng : R.

Lemma phase_eq :
  phase (getMoonData timezoneOffset date lat lng) =
  cyclesSinceNewMoon timezoneOffset date
  - Math.floor (cyclesSinceNewMoon timezoneOffset date).
Proof. reflexivity. Qed.

Lemma age_eq :
  age (getMoonData timezoneOffset date lat lng) =
  phase (getMoonData timezoneOffset date lat lng) * SYNODIC_MONTH.
Proof. reflexivity. Qed.

Lemma age_in_cycle (k : Z) :
  IZR k <= cyclesSinceNewMoon timezoneOffset date < IZR k + 1 ->
  age (getMoonData timezoneOffset date lat lng) =
  (cyclesSinceNewMoon timezoneOffset date - IZR k) * SYNODIC_MONTH.
Proof.
  intros H. rewrite age_eq, phase_eq, (floor_unique _ k H). reflexivity.
Qed.

Lemma rise_eq :
  rise (getMoonData timezoneOffset date lat lng) =
  Some (newDate (riseInstant timezoneOffset date)).
Proof. reflexivity. Qed.

Lemma set_eq :
  set (getMoonData timezoneOffset date lat lng) =
  Some (newDate (setInstant timezoneOffset date)).
Proof. reflexivity. Qed.

Lemma transit_eq :
  transit (getMoonData timezoneOffset date lat lng) =
  Some (newDate ((IZR (TimeClip (riseInstant timezoneOffset date))
                  + IZR (TimeClip (setInstant timezoneOffset date))) / 2)).
Proof. reflexivity. Qed.

Lemma setInstant_eq :
  setInstant timezoneOffset date =
  riseInstant timezoneOffset date + IZR 43200000.
Proof. unfold setInstant, riseInstant. lra. Qed.

Lemma phase_range :
  0 <= phase (getMoonData timezoneOffset date lat lng) < 1.
Proof.
  rewrite phase_eq.
  pose proof (floor_bounds (cyclesSinceNewMoon timezoneOffset date)). lra.
Qed.

Lemma age_range :
  0 <= age (getMoonData timezoneOffset date lat lng) < 29.53058867.
Proof.
  rewrite age_eq. pose proof phase_range as H. unfold SYNODIC_MONTH. nra.
Qed.

(** C4.  For every timestamp, before the reference new moon or after it,
    the phase lies in [0,1), and the age, which is the phase times
    29.53058867, lies in [0, 29.53058867). *)
Theorem phase_and_age_range :
  let m := getMoonData timezoneOffset date lat lng in
  0 <= phase m < 1 /\
  age m = phase m * 29.53058867 /\
  0 <= age m < 29.53058867.
Proof.
  intros m. split; [exact phase_range |].
  split; [reflexivity | exact age_range].
Qed.

(** C9.  The snapshot does not depend on the latitude and longitude: any
    two pairs of coordinates give the same record, field by field.  The
    calculator is a total function, so no input is rejected. *)
Theorem coordinates_ignored (lat1 lng1 lat2 lng2 : R) :
  let a := getMoonData timezoneOffset date lat1 lng1 in
  let b := getMoonData timezoneOffset date lat2 lng2 in
  a = b /\
  phase a = phase b /\ age a = age b /\ fraction a = fraction b /\
  name a = name b /\
  rise a = rise b /\ set a = set b /\ transit a = transit b /\
  distance a = distance b.
Proof.
  intros a b.
  assert (H : a = b) by reflexivity.
  split; [exact H |].
  rewrite H. repeat split.
Qed.

(** C7, amended.  The day start is the local midnight at or before the
    input.  Rise is the day start plus (6 + age * 0.8) hours and set the day
    start plus (18 + age * 0.8) hours, each as a whole number of
    milliseconds less than two milliseconds away from that instant.
    Transit is the midpoint of rise and set cut to a whole millisecond: at
    most half a millisecond from the midpoint, and the midpoint exactly
    when the sum of the two time values is even. *)
Theorem rise_set_transit :
  let m := getMoonData timezoneOffset date lat lng in
  let dayStart := getTime (setHours0 timezoneOffset date) in
  let riseAt := IZR dayStart + (6 + age m * 0.8) * 3600000 in
  let setAt := IZR dayStart + (18 + age m * 0.8) * 3600000 in
  (dayStart <= getTime date < dayStart + 86400000)%Z /\
  ((dayStart - timezoneOffset * 60000) mod 86400000 = 0)%Z /\
  exists r s t : Z,
    rise m = Some (mkDate r) /\
    set m = Some (mkDate s) /\
    transit m = Some (mkDate t) /\
    Rabs (IZR r - riseAt) < 2 /\
    Rabs (IZR s - setAt) < 2 /\
    (-1 <= 2 * t - (r + s) <= 1)%Z /\
    (Z.even (r + s) = true -> (2 * t = r + s)%Z).
Proof.
  intros m dayStart riseAt setAt.
  destruct (setHours0_spec timezoneOffset date) as [Hday Hmid].
  split; [exact Hday |]. split; [exact Hmid |].
  exists (TimeClip riseAt), (TimeClip setAt),
    (TimeClip ((IZR (TimeClip riseAt) + IZR (TimeClip setAt)) / 2)).
  do 3 (split; [reflexivity |]).
  split; [pose proof (TimeClip_near riseAt) as H; apply abs_lt in H;
          apply abs_lt; lra |].
  split; [pose proof (TimeClip_near setAt) as H; apply abs_lt in H;
          apply abs_lt; lra |].
  rewrite <- plus_IZR. apply TimeClip_half.
Qed.

(** C10, amended.  The calculator never returns null for rise, set or
    transit: it returns three dates.  The set time is 12 hours after the
    rise time to within two milliseconds.  [normalizeDate] returns its
    first argument unchanged. *)
Theorem rise_set_never_null :
  let m := getMoonData timezoneOffset date lat lng in
  (exists r s t : Date,
     rise m = Some r /\ set m = Some s /\ transit m = Some t /\
     (getTime r + 43199998 <= getTime s <= getTime r + 43200002)%Z) /\
  (forall d base : Date, normalizeDate d base = d).
Proof.
  intros m. split; [| reflexivity].
  exists (newDate (riseInstant timezoneOffset date)),
    (newDate (setInstant timezoneOffset date)),
    (newDate ((IZR (TimeClip (riseInstant timezoneOffset date))
               + IZR (TimeClip (setInstant timezoneOffset date))) / 2)).
  do 3 (split; [reflexivity |]).
  cbn [newDate getTime]. rewrite setInstant_eq.
  pose proof (TimeClip_shift_bounds (riseInstant timezoneOffset date)
                43200000 ltac:(lia)).
  lia.
Qed.

End Calculator.

(** ** The calculator at given instants

    On a host at UTC; time values in milliseconds since the Unix epoch. *)

Lemma phase_in_cycle (timezoneOffset : Z) (date : Date) (lat lng : R) (k : Z) :
  IZR k <= cyclesSinceNewMoon timezoneOffset date < IZR k + 1 ->
  phase (getMoonData timezoneOffset date lat lng) =
  cyclesSinceNewMoon timezoneOffset date - IZR k.
Proof.
  intros H. rewrite phase_eq, (floor_unique _ k H). reflexivity.
Qed.

(** Unfolds the cycle count of a literal date into arithmetic on literals. *)
Ltac cycles_arith :=
  unfold cyclesSinceNewMoon, toJulian, getTimezoneOffset, SYNODIC_MONTH;
  cbn [getTime]; lra.

(** 2024-01-11 11:57:07.2 UTC, the reference new moon. *)
Lemma phase_at_reference_new_moon :
  phase (getMoonData 0 (mkDate 1705060627200) 0 0) = 0.
Proof. rewrite (phase_in_cycle _ _ _ _ 0); cycles_arith. Qed.

(** Ten days after the reference new moon. *)
Lemma age_ten_days_after_new_moon :
  age (getMoonData 0 (mkDate 1705924627200) 0 0) = 10.
Proof. rewrite (age_in_cycle _ _ _ _ 0); cycles_arith. Qed.

(** 1969-12-31 00:00 UTC: rise falls before the Unix epoch, set after it. *)
Lemma snapshot_1969_12_31_midnight :
  let m := getMoonData 0 (mkDate (-86400000)) 0 0 in
  age m = 20.46582023 /\
  rise m = Some (mkDate (-5858437)) /\
  set m = Some (mkDate 37341562) /\
  transit m = Some (mkDate 15741562).
Proof.
  intros m.
  assert (Hage : age (getMoonData 0 (mkDate (-86400000)) 0 0) = 20.46582023)
    by (rewrite (age_in_cycle _ _ _ _ (-669)); cycles_arith).
  assert (Hday : setHours0 0 (mkDate (-86400000)) = mkDate (-86400000))
    by reflexivity.
  assert (Hrise : TimeClip (riseInstant 0 (mkDate (-86400000))) = (-5858437)%Z).
  { unfold riseInstant. rewrite Hage, Hday. cbn [getTime].
    apply TimeClip_neg; lra. }
  assert (Hset : TimeClip (setInstant 0 (mkDate (-86400000))) = 37341562%Z).
  { unfold setInstant. rewrite Hage, Hday. cbn [getTime].
    apply TimeClip_nonneg; lra. }
  split; [exact Hage |]. unfold m.
  rewrite rise_eq, set_eq, transit_eq. unfold newDate.
  rewrite Hrise, Hset.
  split; [reflexivity |]. split; [reflexivity |].
  do 2 f_equal. apply TimeClip_nonneg; lra.
Qed.

(** 1969-12-31 12:00 UTC: the same calendar day, half a day on. *)
Lemma snapshot_1969_12_31_noon :
  let m := getMoonData 0 (mkDate (-43200000)) 0 0 in
  age m = 20.96582023 /\
  rise m = Some (mkDate (-4418437)) /\
  set m = Some (mkDate 38781562).
Proof.
  intros m.
  assert (Hage : age (getMoonData 0 (mkDate (-43200000)) 0 0) = 20.96582023)
    by (rewrite (age_in_cycle _ _ _ _ (-669)); cycles_arith).
  assert (Hday : setHours0 0 (mkDate (-43200000)) = mkDate (-86400000))
    by reflexivity.
  split; [exact Hage |]. unfold m.
  rewrite rise_eq, set_eq. unfold newDate, riseInstant, setInstant.
  rewrite Hage, Hday. cbn [getTime].
  split; do 2 f_equal.
  - apply TimeClip_neg; lra.
  - apply TimeClip_nonneg; lra.
Qed.

(** ** The phase calculator: witnesses and counterexamples *)

(** C6.  The name in the snapshot is the one the cascade gives for the age
    in the snapshot.  On [0, 29.53058867) the cascade is the map of the nine
    literal bands of the specification: every age lies in exactly one band,
    and gets that band's name.  Ten days is WAXING_GIBBOUS, also as the age
    of a snapshot. *)
Theorem phase_name_bands :
  (forall (timezoneOffset : Z) (date : Date) (lat lng : R),
     let m := getMoonData timezoneOffset date lat lng in
     name m = phaseNameOfAge (age m)) /\
  (forall a : R,
     0 <= a < 29.53058867 ->
     exists b,
       In b specPhaseNameBands /\ inBand a b /\ phaseNameOfAge a = snd b /\
       forall b', In b' specPhaseNameBands -> inBand a b' -> b' = b) /\
  phaseNameOfAge 10 = WAXING_GIBBOUS /\
  (age (getMoonData 0 (mkDate 1705924627200) 0 0) = 10 /\
   name (getMoonData 0 (mkDate 1705924627200) 0 0) = WAXING_GIBBOUS).
Proof.
  assert (H10 : phaseNameOfAge 10 = WAXING_GIBBOUS).
  { unfold phaseNameOfAge. settle_cmp. reflexivity. }
  split; [reflexivity |].
  split; [exact phaseNameOfAge_band |].
  split; [exact H10 |].
  split; [exact age_ten_days_after_new_moon |].
  change (phaseNameOfAge (age (getMoonData 0 (mkDate 1705924627200) 0 0))
          = WAXING_GIBBOUS).
  rewrite age_ten_days_after_new_moon. exact H10.
Qed.

Lemma phase_name_bands_witness :
  0 <= 10 < 29.53058867 /\
  exists b,
    In b specPhaseNameBands /\ inBand 10 b /\ snd b = WAXING_GIBBOUS.
Proof.
  assert (Hd : 0 <= 10 < 29.53058867) by lra.
  split; [exact Hd |].
  destruct phase_name_bands as (_ & Hband & H10 & _).
  destruct (Hband 10 Hd) as (b & Hin & Hb & Hn & _).
  exists b. split; [exact Hin |]. split; [exact Hb |].
  rewrite <- Hn. exact H10.
Defined.

(** C7, as the specification states it, fails.  For 1969-12-31 00:00 UTC
    the rise falls before the Unix epoch and the set after it; both are
    truncated toward zero, so they are 12 hours less one millisecond apart
    and the transit, truncated again, is not their midpoint. *)
Lemma rise_set_transit_counterexample :
  let m := getMoonData 0 (mkDate (-86400000)) 0 0 in
  let dayStart := getTime (setHours0 0 (mkDate (-86400000))) in
  ~ (exists r s t : Z,
       rise m = Some (mkDate r) /\
       set m = Some (mkDate s) /\
       transit m = Some (mkDate t) /\
       IZR r = IZR dayStart + (6 + age m * 0.8) * 3600000 /\
       IZR s = IZR dayStart + (18 + age m * 0.8) * 3600000 /\
       IZR t = (IZR r + IZR s) / 2).
Proof.
  intros m dayStart (r & s & t & Hr & Hs & Ht & _ & _ & Hmid).
  destruct snapshot_1969_12_31_midnight as (_ & Er & Es & Et).
  fold m in Er, Es, Et.
  rewrite Er in Hr. rewrite Es in Hs. rewrite Et in Ht.
  injection Hr as <-. injection Hs as <-. injection Ht as <-.
  lra.
Qed.

Lemma rise_set_transit_witness :
  let m := getMoonData 0 (mkDate 1705924627200) 0 0 in
  Z.even (1705932000000 + 1705975200000) = true /\
  rise m = Some (mkDate 1705932000000) /\
  set m = Some (mkDate 1705975200000) /\
  transit m = Some (mkDate 1705953600000).
Proof.
  intros m.
  assert (Hage : age m = 10) by exact age_ten_days_after_new_moon.
  assert (Hr0 : rise m = Some (mkDate 1705932000000)).
  { unfold m. rewrite rise_eq. unfold newDate, riseInstant.
    fold m. rewrite Hage.
    change (getTime (setHours0 0 (mkDate 1705924627200)))
      with 1705881600000%Z.
    do 2 f_equal. apply TimeClip_nonneg; lra. }
  assert (Hs0 : set m = Some (mkDate 1705975200000)).
  { unfold m. rewrite set_eq. unfold newDate, setInstant.
    fold m. rewrite Hage.
    change (getTime (setHours0 0 (mkDate 1705924627200)))
      with 1705881600000%Z.
    do 2 f_equal. apply TimeClip_nonneg; lra. }
  assert (He : Z.even (1705932000000 + 1705975200000) = true)
    by reflexivity.
  split; [exact He |]. split; [exact Hr0 |]. split; [exact Hs0 |].
  destruct (rise_set_transit 0 (mkDate 1705924627200) 0 0)
    as (_ & _ & r & s & t & Hr & Hs & Ht & _ & _ & _ & Hmid).
  fold m in Hr, Hs, Ht.
  rewrite Hr0 in Hr. rewrite Hs0 in Hs.
  injection Hr as <-. injection Hs as <-.
  specialize (Hmid He).
  rewrite Ht. do 2 f_equal. lia.
Defined.

(** C10, as stated, fails.  For 1969-12-31 12:00 UTC the rise falls before
    the Unix epoch and the set after it, and the set time is 12 hours less
    one millisecond after the rise time. *)
Lemma set_twelve_hours_after_rise_counterexample :
  let m := getMoonData 0 (mkDate (-43200000)) 0 0 in
  ~ (exists r s : Date,
       rise m = Some r /\ set m = Some s /\
       getTime s = (getTime r + 43200000)%Z).
Proof.
  intros m (r & s & Hr & Hs & H).
  destruct snapshot_1969_12_31_noon as (_ & Er & Es).
  fold m in Er, Es.
  rewrite Er in Hr. rewrite Es in Hs.
  injection Hr as <-. injection Hs as <-.
  cbn [getTime] in H. lia.
Qed.

(** ** More of the phase calculator *)

Lemma fraction_eq (timezoneOffset : Z) (date : Date) (lat lng : R) :
  fraction (getMoonData timezoneOffset date lat lng) =
  0.5 * (1 - cos (phase (getMoonData timezoneOffset date lat lng) * 2 * PI)).
Proof. reflexivity. Qed.

Lemma name_eq (timezoneOffset : Z) (date : Date) (lat lng : R) :
  name (getMoonData timezoneOffset date lat lng) =
  phaseNameOfAge (age (getMoonData timezoneOffset date lat lng)).
Proof. reflexivity. Qed.

(** Two numbers whose difference is [delta] less a whole number [n], with
    [delta] away from 0 and from 1 in size, are apart. *)
Lemma apart_modulo_one (x y delta : R) (n : Z) :
  y - x = delta - IZR n ->
  0.00002 < Rabs delta < 0.99998 ->
  0.00002 < Rabs (y - x).
Proof.
  intros H Hd. rewrite H.
  assert (Hn : (n = 0 \/ n <= -1 \/ 1 <= n)%Z) by lia.
  unfold Rabs in *.
  destruct Hn as [-> | [Hn | Hn]].
  - destruct (Rcase_abs delta), (Rcase_abs (delta - 0)); lra.
  - apply IZR_le in Hn.
    destruct (Rcase_abs delta), (Rcase_abs (delta - IZR n)); lra.
  - apply IZR_le in Hn.
    destruct (Rcase_abs delta), (Rcase_abs (delta - IZR n)); lra.
Qed.

(** The snapshot depends on the time zone of the host.  [toJulian] takes
    the local wall-clock time for the instant, so at one and the same time
    value two hosts whose [getTimezoneOffset()] differ, by a day at most,
    get phases that are more than 0.00002 apart. *)
Theorem host_offset_changes_phase (tz1 tz2 : Z) (date : Date)
    (lat lng : R) :
  tz1 <> tz2 -> (-1440 <= tz1 - tz2 <= 1440)%Z ->
  0.00002 <
  Rabs (phase (getMoonData tz2 date lat lng)
        - phase (getMoonData tz1 date lat lng)).
Proof.
  intros Hne Hday.
  rewrite !phase_eq. unfold Math.floor.
  set (c1 := cyclesSinceNewMoon tz1 date).
  set (c2 := cyclesSinceNewMoon tz2 date).
  assert (Hc : c2 - c1 = IZR (tz1 - tz2) / 1440 / 29.53058867).
  { unfold c1, c2, cyclesSinceNewMoon, toJulian, getTimezoneOffset,
      SYNODIC_MONTH. rewrite minus_IZR. lra. }
  apply (apart_modulo_one _ _ (IZR (tz1 - tz2) / 1440 / 29.53058867)
           (Int_part c2 - Int_part c1)).
  - rewrite (minus_IZR (Int_part c2)). lra.
  - assert (Hz : (tz1 - tz2 <= -1 \/ 1 <= tz1 - tz2)%Z) by lia.
    destruct Hday as [Hl Hu]. apply IZR_le in Hl. apply IZR_le in Hu.
    unfold Rabs. destruct Hz as [Hz | Hz]; apply IZR_le in Hz;
      destruct (Rcase_abs (IZR (tz1 - tz2) / 1440 / 29.53058867)); lra.
Qed.

Lemma host_offset_changes_phase_witness :
  (0 <> -480)%Z /\ (-1440 <= 0 - -480 <= 1440)%Z /\
  0.00002 <
  Rabs (phase (getMoonData (-480) (mkDate 1705924627200) 39.9042 116.4074)
        - phase (getMoonData 0 (mkDate 1705924627200) 39.9042 116.4074)).
Proof.
  assert (H1 : (0 <> -480)%Z) by discriminate.
  assert (H2 : (-1440 <= 0 - -480 <= 1440)%Z) by lia.
  split; [exact H1 |]. split; [exact H2 |].
  exact (host_offset_changes_phase 0 (-480) (mkDate 1705924627200)
           39.9042 116.4074 H1 H2).
Defined.

Lemma cycles_setDatePlus (timezoneOffset : Z) (d : Date) (days : Z) :
  cyclesSinceNewMoon timezoneOffset (setDatePlus d days) =
  cyclesSinceNewMoon timezoneOffset d + IZR days / 29.53058867.
Proof.
  unfold cyclesSinceNewMoon, toJulian, getTimezoneOffset, setDatePlus.
  cbn [getTime]. rewrite plus_IZR, mult_IZR. unfold SYNODIC_MONTH. lra.
Qed.

(** The age [days] days on, when the sum has left the cycle [k] times. *)
Lemma age_after_days (timezoneOffset : Z) (d : Date) (lat lng : R)
    (days k : Z) :
  let a0 := age (getMoonData timezoneOffset d lat lng) in
  0 <= a0 + IZR days - IZR k * 29.53058867 < 29.53058867 ->
  age (getMoonData timezoneOffset (setDatePlus d days) lat lng) =
  a0 + IZR days - IZR k * 29.53058867.
Proof.
  intros a0 H. unfold a0 in *. clear a0.
  rewrite age_eq, phase_eq in H.
  pose proof (floor_bounds (cyclesSinceNewMoon timezoneOffset d)) as Hf.
  unfold Math.floor in *.
  set (c := cyclesSinceNewMoon timezoneOffset d) in *.
  rewrite (age_in_cycle _ _ _ _ (Int_part c + k)).
  - rewrite age_eq, phase_eq. fold c. unfold Math.floor.
    rewrite cycles_setDatePlus. fold c.
    rewrite plus_IZR. unfold SYNODIC_MONTH. lra.
  - rewrite cycles_setDatePlus. fold c.
    rewrite plus_IZR. unfold SYNODIC_MONTH in H. lra.
Qed.

(** Stepping the date with [handleDateChange] moves the age with it, to
    within a millionth of a day.  One day on, the age is one day more when
    that stays inside the cycle, and one day more less a synodic month when
    it leaves the cycle; one day back, one day less, or one day less plus a
    synodic month.  Each case is stated for ages a millionth of a day or
    more away from the point where the cycle wraps. *)
Theorem age_follows_date_change (timezoneOffset : Z) (d : Date)
    (lat lng : R) :
  let a0 := age (getMoonData timezoneOffset d lat lng) in
  let next := age (getMoonData timezoneOffset (handleDateChange d 1) lat lng) in
  let prev :=
    age (getMoonData timezoneOffset (handleDateChange d (-1)) lat lng) in
  (a0 + 1 <= 29.53058867 - 0.000001 ->
   Rabs (next - (a0 + 1)) <= 0.000001) /\
  (29.53058867 + 0.000001 <= a0 + 1 ->
   Rabs (next - (a0 + 1 - 29.53058867)) <= 0.000001) /\
  (1 + 0.000001 <= a0 -> Rabs (prev - (a0 - 1)) <= 0.000001) /\
  (a0 <= 1 - 0.000001 ->
   Rabs (prev - (a0 - 1 + 29.53058867)) <= 0.000001).
Proof.
  intros a0 next prev.
  pose proof (age_range timezoneOffset d lat lng) as Ha. fold a0 in Ha.
  assert (Hzero : forall x y : R, x = y -> Rabs (x - y) <= 0.000001).
  { intros x y ->. replace (y - y) with 0 by lra. rewrite Rabs_R0. lra. }
  unfold next, prev, handleDateChange.
  repeat split; intros H; apply Hzero.
  - rewrite (age_after_days _ _ _ _ 1 0); fold a0; lra.
  - rewrite (age_after_days _ _ _ _ 1 1); fold a0; lra.
  - rewrite (age_after_days _ _ _ _ (-1) 0); fold a0; lra.
  - rewrite (age_after_days _ _ _ _ (-1) (-1)); fold a0; lra.
Qed.

Lemma age_follows_date_change_witness :
  age (getMoonData 0 (mkDate 1705924627200) 0 0) + 1
  <= 29.53058867 - 0.000001 /\
  Rabs (age (getMoonData 0 (handleDateChange (mkDate 1705924627200) 1) 0 0)
        - 11) <= 0.000001.
Proof.
  assert (H : age (getMoonData 0 (mkDate 1705924627200) 0 0) + 1
              <= 29.53058867 - 0.000001)
    by (rewrite age_ten_days_after_new_moon; lra).
  split; [exact H |].
  pose proof (proj1 (age_follows_date_change 0 (mkDate 1705924627200) 0 0) H)
    as Hn.
  rewrite age_ten_days_after_new_moon in Hn.
  replace 11 with (10 + 1) by lra. exact Hn.
Defined.

(** The correction for a negative value in the helper [normalize] never
    fires: [normalize] returns its argument less the floor of its argument,
    a number from 0 to 1.  The phase of every snapshot is [normalize] of
    the cycle count, although [getMoonData] does not call it. *)
Theorem normalize_is_fractional_part (x : R) :
  normalize x = x - Math.floor x /\
  0 <= normalize x <= 1 /\
  (forall (timezoneOffset : Z) (date : Date) (lat lng : R),
     phase (getMoonData timezoneOffset date lat lng) =
     normalize (cyclesSinceNewMoon timezoneOffset date)).
Proof.
  split; [apply normalize_eq |].
  split; [pose proof (normalize_range x); lra |].
  intros tz date lat lng. rewrite normalize_eq. apply phase_eq.
Qed.

(** ** The name and the illuminated fraction agree *)

Lemma phaseNameOfAge_cases (a : R) :
  (a < 1.84566 /\ phaseNameOfAge a = NEW_MOON) \/
  (1.84566 <= a < 5.53699 /\ phaseNameOfAge a = WAXING_CRESCENT) \/
  (5.53699 <= a < 9.22831 /\ phaseNameOfAge a = FIRST_QUARTER) \/
  (9.22831 <= a < 12.91963 /\ phaseNameOfAge a = WAXING_GIBBOUS) \/
  (12.91963 <= a < 16.61096 /\ phaseNameOfAge a = FULL_MOON) \/
  (16.61096 <= a < 20.30228 /\ phaseNameOfAge a = WANING_GIBBOUS) \/
  (20.30228 <= a < 23.99361 /\ phaseNameOfAge a = LAST_QUARTER) \/
  (23.99361 <= a < 27.68493 /\ phaseNameOfAge a = WANING_CRESCENT) \/
  (27.68493 <= a /\ phaseNameOfAge a = NEW_MOON).
Proof.
  unfold phaseNameOfAge, ltb.
  destruct (Rlt_dec a 1.84566); [left; split; [lra | reflexivity] |].
  destruct (Rlt_dec a 5.53699);
    [right; left; split; [lra | reflexivity] |].
  destruct (Rlt_dec a 9.22831);
    [do 2 right; left; split; [lra | reflexivity] |].
  destruct (Rlt_dec a 12.91963);
    [do 3 right; left; split; [lra | reflexivity] |].
  destruct (Rlt_dec a 16.61096);
    [do 4 right; left; split; [lra | reflexivity] |].
  destruct (Rlt_dec a 20.30228);
    [do 5 right; left; split; [lra | reflexivity] |].
  destruct (Rlt_dec a 23.99361);
    [do 6 right; left; split; [lra | reflexivity] |].
  destruct (Rlt_dec a 27.68493);
    [do 7 right; left; split; [lra | reflexivity] |].
  do 8 right. split; [lra | reflexivity].
Qed.

Lemma inv_sqrt2_bounds : 0.7 < 1 / sqrt 2 < 0.71.
Proof.
  assert (H2 : sqrt 2 * sqrt 2 = 2) by (apply sqrt_sqrt; lra).
  assert (Hp : 0 < sqrt 2) by (apply sqrt_lt_R0; lra).
  assert (Hl : 1.41 < sqrt 2) by nra.
  assert (Hu : sqrt 2 < 1.42) by nra.
  assert (Hq : 1 / sqrt 2 * sqrt 2 = 1) by (field; lra).
  split; nra.
Qed.

(** The cosine of a turn [p] near the full moon, 0.375 <= p <= 0.625. *)
Lemma cos_turn_near_half (p : R) :
  0.375 <= p <= 0.625 -> cos (p * 2 * PI) <= - (1 / sqrt 2).
Proof.
  intros H. pose proof PI_RGT_0 as HPI.
  assert (Hs : 0 < sqrt 2) by (apply sqrt_lt_R0; lra).
  destruct (Rle_dec p 0.5).
  - replace (- (1 / sqrt 2)) with (cos (3 * (PI / 4)))
      by (rewrite cos_3PI4; field; lra).
    apply cos_decr_1; nra.
  - replace (- (1 / sqrt 2)) with (cos (5 * (PI / 4)))
      by (rewrite cos_5PI4; field; lra).
    apply cos_incr_1; nra.
Qed.

(** The cosine of a turn [p] near the new moon, from either side. *)
Lemma cos_turn_near_zero (p : R) :
  0 <= p <= 0.125 \/ 0.875 <= p <= 1 -> 1 / sqrt 2 <= cos (p * 2 * PI).
Proof.
  intros H. pose proof PI_RGT_0 as HPI.
  destruct H as [H | H].
  - rewrite <- cos_PI4. apply cos_decr_1; nra.
  - rewrite <- cos_PI4.
    replace (cos (PI / 4)) with (cos (7 * (PI / 4))).
    + apply cos_incr_1; nra.
    + replace (7 * (PI / 4)) with (- (PI / 4) + 2 * INR 1 * PI)
        by (simpl; lra).
      rewrite cos_period. apply cos_neg.
Qed.

Lemma cos_turn_pos (p : R) :
  0 <= p < 0.25 \/ 0.75 < p <= 1 -> 0 < cos (p * 2 * PI).
Proof.
  intros H. pose proof PI_RGT_0 as HPI.
  destruct H as [H | H].
  - apply cos_gt_0; nra.
  - replace (p * 2 * PI) with ((p * 2 * PI - 2 * PI) + 2 * INR 1 * PI)
      by (simpl; lra).
    rewrite cos_period. apply cos_gt_0; nra.
Qed.

Lemma cos_turn_neg (p : R) :
  0.25 < p < 0.75 -> cos (p * 2 * PI) < 0.
Proof.
  intros H. pose proof PI_RGT_0 as HPI. apply cos_lt_0; nra.
Qed.

Lemma cos_7PI4 : cos (7 * (PI / 4)) = 1 / sqrt 2.
Proof.
  replace (7 * (PI / 4)) with (- (PI / 4) + 2 * INR 1 * PI) by (simpl; lra).
  rewrite cos_period, cos_neg. apply cos_PI4.
Qed.

(** The cosine of a turn [p] around the quarters. *)
Lemma cos_turn_near_quarter (p : R) :
  0.125 <= p <= 0.375 \/ 0.625 <= p <= 0.875 ->
  - (1 / sqrt 2) <= cos (p * 2 * PI) <= 1 / sqrt 2.
Proof.
  intros H. pose proof PI_RGT_0 as HPI.
  assert (Hs : 0 < sqrt 2) by (apply sqrt_lt_R0; lra).
  assert (H3 : cos (3 * (PI / 4)) = - (1 / sqrt 2))
    by (rewrite cos_3PI4; field; lra).
  assert (H5 : cos (5 * (PI / 4)) = - (1 / sqrt 2))
    by (rewrite cos_5PI4; field; lra).
  destruct H as [H | H].
  - rewrite <- H3, <- cos_PI4. split; apply cos_decr_1; nra.
  - rewrite <- H5, <- cos_7PI4. split; apply cos_incr_1; nra.
Qed.

(** Strictly inside a turn the cosine is below 1, and off the half turn it
    is above -1. *)
Lemma cos_turn_strict (p : R) :
  (0 < p < 1 -> cos (p * 2 * PI) < 1) /\
  (0 <= p <= 1 -> p <> 0.5 -> -1 < cos (p * 2 * PI)).
Proof.
  pose proof PI_RGT_0 as HPI. split.
  - intros H. destruct (Rle_dec p 0.5).
    + rewrite <- cos_0. apply cos_decreasing_1; nra.
    + rewrite <- cos_2PI. apply cos_increasing_1; nra.
  - intros H Hn. rewrite <- cos_PI. destruct (Rle_dec p 0.5).
    + apply cos_decreasing_1; nra.
    + apply cos_increasing_1; nra.
Qed.

(** The name shown and the illuminated fraction shown never contradict each
    other: the fraction always lies in [0,1]; it is above 0.85 under the
    name FULL_MOON and below 0.15 under NEW_MOON, strictly between 0.5 and 1
    under the two gibbous names, strictly between 0 and 0.5 under the two
    crescent names, and between 0.14 and 0.86 under the two quarter
    names. *)
Theorem fraction_agrees_with_name (timezoneOffset : Z) (date : Date)
    (lat lng : R) :
  let m := getMoonData timezoneOffset date lat lng in
  0 <= fraction m <= 1 /\
  (name m = FULL_MOON -> 0.85 < fraction m) /\
  (name m = NEW_MOON -> fraction m < 0.15) /\
  (name m = WAXING_GIBBOUS \/ name m = WANING_GIBBOUS ->
   0.5 < fraction m < 1) /\
  (name m = WAXING_CRESCENT \/ name m = WANING_CRESCENT ->
   0 < fraction m < 0.5) /\
  (name m = FIRST_QUARTER \/ name m = LAST_QUARTER ->
   0.14 < fraction m < 0.86).
Proof.
  intros m.
  pose proof (phase_range timezoneOffset date lat lng) as Hp.
  pose proof (age_eq timezoneOffset date lat lng) as Ha.
  pose proof (fraction_eq timezoneOffset date lat lng) as Hf.
  pose proof (name_eq timezoneOffset date lat lng) as Hn.
  fold m in Hp, Ha, Hf, Hn. unfold SYNODIC_MONTH in Ha.
  pose proof (COS_bound (phase m * 2 * PI)) as [Hc1 Hc2].
  pose proof inv_sqrt2_bounds as Hq.
  pose proof (cos_turn_strict (phase m)) as [Hlt1 Hgt1].
  rewrite Hf, Hn.
  split; [lra |].
  destruct (phaseNameOfAge_cases (age m))
    as [[Hb ->] | [[Hb ->] | [[Hb ->] | [[Hb ->] | [[Hb ->] | [[Hb ->]
       | [[Hb ->] | [[Hb ->] | [Hb ->]]]]]]]]];
    rewrite Ha in Hb;
    (split; [| split; [| split; [| split]]]; intros Hname;
     try discriminate Hname;
     try (destruct Hname as [Hname | Hname]; discriminate Hname)).
  - pose proof (cos_turn_near_zero (phase m) ltac:(lra)). lra.
  - pose proof (cos_turn_pos (phase m) ltac:(lra)).
    specialize (Hlt1 ltac:(lra)). lra.
  - pose proof (cos_turn_near_quarter (phase m) ltac:(lra)). lra.
  - pose proof (cos_turn_neg (phase m) ltac:(lra)).
    specialize (Hgt1 ltac:(lra) ltac:(lra)). lra.
  - pose proof (cos_turn_near_half (phase m) ltac:(lra)). lra.
  - pose proof (cos_turn_neg (phase m) ltac:(lra)).
    specialize (Hgt1 ltac:(lra) ltac:(lra)). lra.
  - pose proof (cos_turn_near_quarter (phase m) ltac:(lra)). lra.
  - pose proof (cos_turn_pos (phase m) ltac:(lra)).
    specialize (Hlt1 ltac:(lra)). lra.
  - pose proof (cos_turn_near_zero (phase m) ltac:(lra)). lra.
Qed.

Lemma fraction_agrees_with_name_witness :
  name (getMoonData 0 (mkDate 1705924627200) 0 0) = WAXING_GIBBOUS /\
  0.5 < fraction (getMoonData 0 (mkDate 1705924627200) 0 0) < 1.
Proof.
  assert (Hn : name (getMoonData 0 (mkDate 1705924627200) 0 0)
               = WAXING_GIBBOUS).
  { rewrite name_eq, age_ten_days_after_new_moon.
    unfold phaseNameOfAge. settle_cmp. reflexivity. }
  split; [exact Hn |].
  destruct (fraction_agrees_with_name 0 (mkDate 1705924627200) 0 0)
    as (_ & _ & _ & Hg & _).
  apply Hg. left. exact Hn.
Defined.

(** ** Rise, transit and set in order *)

Lemma Int_part_le (x y : R) : x <= y -> (Int_part x <= Int_part y)%Z.
Proof.
  intros H.
  destruct (base_Int_part x) as [Hx _].
  destruct (base_Int_part y) as [_ Hy].
  assert (Hlt : (Int_part x < Int_part y + 1)%Z); [| lia].
  apply lt_IZR. rewrite plus_IZR. lra.
Qed.

Lemma TimeClip_le (x y : R) : x <= y -> (TimeClip x <= TimeClip y)%Z.
Proof.
  intros H. unfold TimeClip.
  destruct (Rle_dec 0 x), (Rle_dec 0 y); try lra.
  - apply Int_part_le. exact H.
  - assert (H0 : (Int_part 0 <= Int_part (- x))%Z)
      by (apply Int_part_le; lra).
    assert (H1 : (Int_part 0 <= Int_part y)%Z) by (apply Int_part_le; lra).
    change 0 with (IZR 0) in H0, H1. rewrite Int_part_IZR in H0, H1. lia.
  - assert (H0 : (Int_part (- y) <= Int_part (- x))%Z)
      by (apply Int_part_le; lra).
    lia.
Qed.

(** Rise is never after transit and transit never after set.  With the day
    start the local midnight of the input's day, rise lies from 6 h to
    29 h 37 min 28.096 s after it and set from 18 h to 41 h 37 min 28.096 s
    after it.  From an age of 7.5 days on, the set time is 24 hours or more
    after the day start, and from an age of 22.5 days on so is the rise
    time: [normalizeDate] leaves both on the following calendar day. *)
Theorem rise_transit_set_order (timezoneOffset : Z) (date : Date)
    (lat lng : R) :
  let m := getMoonData timezoneOffset date lat lng in
  let dayStart := getTime (setHours0 timezoneOffset date) in
  exists r s t : Z,
    rise m = Some (mkDate r) /\
    set m = Some (mkDate s) /\
    transit m = Some (mkDate t) /\
    (r <= t <= s)%Z /\
    (dayStart + 21600000 <= r <= dayStart + 106648096)%Z /\
    (dayStart + 64800000 <= s <= dayStart + 149848096)%Z /\
    (7.5 <= age m -> (dayStart + 86400000 <= s)%Z) /\
    (22.5 <= age m -> (dayStart + 86400000 <= r)%Z).
Proof.
  intros m dayStart.
  pose proof (age_range timezoneOffset date lat lng) as Ha. fold m in Ha.
  set (riseAt := IZR dayStart + (6 + age m * 0.8) * 3600000).
  set (setAt := IZR dayStart + (18 + age m * 0.8) * 3600000).
  exists (TimeClip riseAt), (TimeClip setAt),
    (TimeClip ((IZR (TimeClip riseAt) + IZR (TimeClip setAt)) / 2)).
  do 3 (split; [reflexivity |]).
  assert (Hrs : (TimeClip riseAt <= TimeClip setAt)%Z)
    by (apply TimeClip_le; unfold riseAt, setAt; lra).
  assert (Hclip : forall (z : Z) (x : R),
            (IZR z <= x -> (z <= TimeClip x)%Z) /\
            (x <= IZR z -> (TimeClip x <= z)%Z)).
  { intros z x. split; intros H; apply TimeClip_le in H;
      rewrite TimeClip_IZR in H; exact H. }
  split.
  { apply IZR_le in Hrs.
    split; [apply (proj1 (Hclip _ _)) | apply (proj2 (Hclip _ _))]; lra. }
  split.
  { split; [apply (proj1 (Hclip _ _)) | apply (proj2 (Hclip _ _))];
      rewrite plus_IZR; unfold riseAt; lra. }
  split.
  { split; [apply (proj1 (Hclip _ _)) | apply (proj2 (Hclip _ _))];
      rewrite plus_IZR; unfold setAt; lra. }
  split; intros H; apply (proj1 (Hclip _ _)); rewrite plus_IZR;
    unfold riseAt, setAt; lra.
Qed.

Lemma rise_transit_set_order_witness :
  7.5 <= age (getMoonData 0 (mkDate 1705924627200) 0 0) /\
  exists s : Z,
    set (getMoonData 0 (mkDate 1705924627200) 0 0) = Some (mkDate s) /\
    (getTime (setHours0 0 (mkDate 1705924627200)) + 86400000 <= s)%Z.
Proof.
  assert (H : 7.5 <= age (getMoonData 0 (mkDate 1705924627200) 0 0))
    by (rewrite age_ten_days_after_new_moon; lra).
  split; [exact H |].
  destruct (rise_transit_set_order 0 (mkDate 1705924627200) 0 0)
    as (r & s & t & _ & Hs & _ & _ & _ & _ & Hnext & _).
  exists s. split; [exact Hs | exact (Hnext H)].
Defined.

(** ** More of the silhouette *)

(** Whatever the phase, the outline stays on the disc: every command ends at
    a pole, every arc has vertical semi-axis 48 and a horizontal semi-axis
    between 0 and 48, and the enclosed area lies between 0 and the area of
    the disc. *)
Theorem outline_stays_on_disc (p : R) :
  Forall onDisc (MoonVisual p) /\ 0 <= litArea p <= fullDiscArea.
Proof.
  pose proof PI_RGT_0 as HPI.
  pose proof (COS_bound (p * 2 * PI)) as [Hc1 Hc2].
  destruct (MoonVisual_cases p) as [H | [H | H]].
  - rewrite litArea_new_moon, MoonVisual_new_moon by exact H.
    split; [constructor | unfold fullDiscArea; nra].
  - rewrite litArea_full_moon, MoonVisual_full_moon by exact H.
    split; [| unfold fullDiscArea; nra].
    unfold fullDiscPath.
    repeat (apply Forall_cons || apply Forall_nil); simpl; lra.
  - split.
    + rewrite MoonVisual_general by exact H.
      pose proof (semi_axis_range p).
      repeat (apply Forall_cons || apply Forall_nil); simpl; lra.
    + destruct H as [H | H].
      * rewrite litArea_waxing by exact H.
        unfold halfDiscArea, fullDiscArea. nra.
      * rewrite litArea_waning by exact H.
        unfold halfDiscArea, fullDiscArea. nra.
Qed.




(** The enclosed area grows strictly with the phase from 0.01 to 0.49, and
    it grows strictly with the phase from 0.51 to 0.99 as well. *)
Theorem lit_area_grows (p q : R) :
  p < q ->
  (0.01 <= p -> q <= 0.49 -> litArea p < litArea q) /\
  (0.51 <= p -> q <= 0.99 -> litArea p < litArea q).
Proof.
  intros Hpq. pose proof PI_RGT_0 as HPI.
  assert (Hh : 0 < halfDiscArea) by (unfold halfDiscArea; nra).
  split; intros Hp Hq.
  - rewrite !litArea_waxing by lra.
    assert (cos (q * 2 * PI) < cos (p * 2 * PI))
      by (apply cos_decreasing_1; nra).
    nra.
  - rewrite !litArea_waning by lra.
    assert (cos (p * 2 * PI) < cos (q * 2 * PI))
      by (apply cos_increasing_1; nra).
    nra.
Qed.

Lemma lit_area_grows_witness :
  0.6 < 0.9 /\ litArea 0.6 < litArea 0.9.
Proof.
  assert (H : 0.6 < 0.9) by lra.
  split; [exact H |].
  apply (proj2 (lit_area_grows 0.6 0.9 H)); lra.
Defined.

(** ** Jumping to the next day of a phase *)

Lemma MoonPhaseName_eqb_eq (a b : MoonPhaseName) :
  MoonPhaseName_eqb a b = true <-> a = b.
Proof.
  split.
  - destruct a, b; simpl; intros H; try reflexivity; discriminate H.
  - intros ->. destruct b; reflexivity.
Qed.

Lemma setDatePlus_plus (d : Date) (a b : Z) :
  setDatePlus (setDatePlus d a) b = setDatePlus d (a + b).
Proof. unfold setDatePlus. cbn [getTime]. f_equal. lia. Qed.

(** Every name owns a stretch of ages more than a day long. *)
Lemma phaseNameOfAge_stretch (n : MoonPhaseName) :
  exists lo hi : R,
    0 <= lo /\ hi <= 29.53058867 /\ lo + 1 < hi /\
    forall a, lo <= a < hi -> phaseNameOfAge a = n.
Proof.
  destruct n;
    [ exists 0, 1.84566 | exists 1.84566, 5.53699
    | exists 5.53699, 9.22831 | exists 9.22831, 12.91963
    | exists 12.91963, 16.61096 | exists 16.61096, 20.30228
    | exists 20.30228, 23.99361 | exists 23.99361, 27.68493 ];
    (repeat (split; [lra |])); intros a Ha;
    unfold phaseNameOfAge; settle_cmp; reflexivity.
Qed.

(** The least whole number at or above [x]. *)
Lemma ceiling_exists (x : R) : exists i : Z, x <= IZR i < x + 1.
Proof.
  exists (- Int_part (- x))%Z.
  destruct (base_Int_part (- x)). rewrite opp_IZR. lra.
Qed.

(** Within the next 30 days some day carries the name asked for. *)
Lemma name_within_30_days (timezoneOffset : Z) (d : Date) (lat lng : R)
    (n : MoonPhaseName) :
  exists i : Z,
    (1 <= i <= 30)%Z /\
    name (getMoonData timezoneOffset (setDatePlus d i) lat lng) = n.
Proof.
  destruct (phaseNameOfAge_stretch n) as (lo & hi & Hlo & Hhi & Hw & Hname).
  pose proof (age_range timezoneOffset d lat lng) as Ha.
  set (a0 := age (getMoonData timezoneOffset d lat lng)) in *.
  assert (Hint : forall i : Z, 0 < IZR i -> IZR i < 31 -> (1 <= i <= 30)%Z).
  { intros i H0 H31. apply lt_IZR in H0. apply lt_IZR in H31. lia. }
  destruct (Rlt_dec a0 lo) as [Hlt | Hge].
  - destruct (ceiling_exists (lo - a0)) as (i & Hi).
    exists i. split; [apply Hint; lra |].
    rewrite name_eq, (age_after_days _ _ _ _ i 0); fold a0.
    + apply Hname. lra.
    + lra.
  - destruct (ceiling_exists (lo + 29.53058867 - a0)) as (i & Hi).
    exists i. split; [apply Hint; lra |].
    rewrite name_eq, (age_after_days _ _ _ _ i 1); fold a0.
    + apply Hname. lra.
    + lra.
Qed.

(** What the loop returns: the first of the next [n] days that carries the
    target name, or nothing if none does. *)
Lemma jumpToPhase_loop_spec (timezoneOffset : Z) (lat lng : R)
    (target : MoonPhaseName) (n : nat) :
  forall d : Date,
    match jumpToPhase_loop timezoneOffset lat lng target n d with
    | Some d' =>
        exists k : Z,
          (1 <= k <= Z.of_nat n)%Z /\ d' = setDatePlus d k /\
          name (getMoonData timezoneOffset d' lat lng) = target /\
          forall j : Z, (1 <= j < k)%Z ->
            name (getMoonData timezoneOffset (setDatePlus d j) lat lng)
            <> target
    | None =>
        forall j : Z, (1 <= j <= Z.of_nat n)%Z ->
          name (getMoonData timezoneOffset (setDatePlus d j) lat lng)
          <> target
    end.
Proof.
  induction n as [| n IH]; intros d.
  - simpl. intros j Hj. lia.
  - cbn [jumpToPhase_loop].
    destruct (MoonPhaseName_eqb
                (name (getMoonData timezoneOffset (setDatePlus d 1) lat lng))
                target) eqn:E.
    + apply MoonPhaseName_eqb_eq in E.
      exists 1%Z. split; [lia |]. split; [reflexivity |].
      split; [exact E |]. intros j Hj. lia.
    + assert (E' : name (getMoonData timezoneOffset (setDatePlus d 1) lat lng)
                   <> target).
      { intros H. apply MoonPhaseName_eqb_eq in H. congruence. }
      specialize (IH (setDatePlus d 1)).
      destruct (jumpToPhase_loop timezoneOffset lat lng target n
                  (setDatePlus d 1)) as [d' |].
      * destruct IH as (k & Hk & Hd & Hn & Hfirst).
        exists (1 + k)%Z. split; [lia |].
        split; [rewrite Hd; apply setDatePlus_plus |].
        split; [exact Hn |].
        intros j Hj. destruct (Z.eq_dec j 1) as [-> | Hj1]; [exact E' |].
        replace j with (1 + (j - 1))%Z by lia.
        rewrite <- setDatePlus_plus. apply Hfirst. lia.
      * intros j Hj. destruct (Z.eq_dec j 1) as [-> | Hj1]; [exact E' |].
        replace j with (1 + (j - 1))%Z by lia.
        rewrite <- setDatePlus_plus. apply IH. lia.
Qed.

(** [jumpToPhase] always moves the current date: for any target name and any
    current date it lands [k] days on with [1 <= k <= 30], on the first of
    the following days whose snapshot carries the target name.  The
    fall-through in which the date stays as it was never happens. *)
Theorem jumpToPhase_finds (timezoneOffset : Z) (currentDate : Date)
    (lat lng : R) (targetPhase : MoonPhaseName) :
  let d := jumpToPhase timezoneOffset currentDate lat lng targetPhase in
  exists k : Z,
    (1 <= k <= 30)%Z /\
    d = setDatePlus currentDate k /\
    name (getMoonData timezoneOffset d lat lng) = targetPhase /\
    forall j : Z, (1 <= j < k)%Z ->
      name (getMoonData timezoneOffset (setDatePlus currentDate j) lat lng)
      <> targetPhase.
Proof.
  intros d. unfold d, jumpToPhase.
  pose proof (jumpToPhase_loop_spec timezoneOffset lat lng targetPhase 30
                currentDate) as Hspec.
  destruct (jumpToPhase_loop timezoneOffset lat lng targetPhase 30
              currentDate) as [d' |].
  - destruct Hspec as (k & Hk & Hd & Hn & Hfirst).
    exists k. split; [lia |]. split; [exact Hd |].
    split; [exact Hn | exact Hfirst].
  - exfalso.
    destruct (name_within_30_days timezoneOffset currentDate lat lng
                targetPhase) as (i & Hi & Hn).
    apply (Hspec i); [lia | exact Hn].
Qed.

(** ** The AI service wrappers *)

Lemma stripPrefix_app (p s : string) :
  stripPrefix p (p ++ s)%string = Some s.
Proof.
  induction p as [| a p IH]; simpl.
  - reflexivity.
  - rewrite Ascii.eqb_refl. exact IH.
Qed.

Lemma stripPrefix_Some (p s r : string) :
  stripPrefix p s = Some r -> s = (p ++ r)%string.
Proof.
  revert s. induction p as [| a p IH]; simpl; intros s H.
  - congruence.
  - destruct s as [| b s]; [discriminate H |].
    destruct (Ascii.eqb a b) eqn:E; [| discriminate H].
    apply Ascii.eqb_eq in E. subst b. f_equal. apply IH. exact H.
Qed.

Lemma truthyString_true (s : string) :
  truthyString s = true <-> s <> EmptyString.
Proof.
  destruct s; simpl; split; intros H; try reflexivity; try discriminate;
    congruence.
Qed.

Lemma orString_not_empty (v : option string) (fallback : string) :
  fallback <> EmptyString -> orString v fallback <> EmptyString.
Proof.
  intros Hf. unfold orString.
  destruct v as [s |]; [| exact Hf].
  destruct (truthyString s) eqn:E; [| exact Hf].
  apply truthyString_true. exact E.
Qed.

(** What [cleanBase64] removes.  A data URL of type png, jpeg or jpg loses
    its header and only the payload is left.  In every case the result is
    the input or the input less one of these three headers.  A data URL of
    another image type, such as webp or gif, comes back whole, and the
    request then carries the whole data URL as the image data, labelled
    image/jpeg. *)
Theorem cleanBase64_strips_three_headers :
  (forall payload : string,
     GeminiService.cleanBase64 ("data:image/png;base64," ++ payload) = payload
     /\
     GeminiService.cleanBase64 ("data:image/jpeg;base64," ++ payload) = payload
     /\
     GeminiService.cleanBase64 ("data:image/jpg;base64," ++ payload) = payload)
  /\
  (forall s : string,
     exists header : string,
       s = (header ++ GeminiService.cleanBase64 s)%string /\
       (header = EmptyString \/ header = "data:image/png;base64,"%string \/
        header = "data:image/jpeg;base64,"%string \/
        header = "data:image/jpg;base64,"%string)) /\
  (forall payload date location : string,
     GeminiService.cleanBase64 ("data:image/webp;base64," ++ payload) =
       ("data:image/webp;base64," ++ payload)%string /\
     GeminiService.cleanBase64 ("data:image/gif;base64," ++ payload) =
       ("data:image/gif;base64," ++ payload)%string /\
     GeminiService.contents
       (GeminiService.analysisRequest
          ("data:image/webp;base64," ++ payload) date location) =
     GeminiService.Parts
       [GeminiService.InlineData "image/jpeg"
          ("data:image/webp;base64," ++ payload);
        GeminiService.TextPart
          (GeminiService.analysisPrompt date location)]).
Proof.
  split; [| split].
  - intros payload. repeat split; reflexivity.
  - intros s. unfold GeminiService.cleanBase64.
    destruct (stripPrefix "data:image/png;base64," s) as [r |] eqn:E1.
    { exists "data:image/png;base64,"%string.
      split; [apply stripPrefix_Some; exact E1 | tauto]. }
    destruct (stripPrefix "data:image/jpeg;base64," s) as [r |] eqn:E2.
    { exists "data:image/jpeg;base64,"%string.
      split; [apply stripPrefix_Some; exact E2 | tauto]. }
    destruct (stripPrefix "data:image/jpg;base64," s) as [r |] eqn:E3.
    { exists "data:image/jpg;base64,"%string.
      split; [apply stripPrefix_Some; exact E3 | tauto]. }
    exists EmptyString. split; [reflexivity | tauto].
  - intros payload date location. repeat split; reflexivity.
Qed.

Lemma analyzeObservation_not_empty (host : GeminiService.Host)
    (base64Image date location : string) :
  GeminiService.analyzeObservation host base64Image date location
  <> EmptyString.
Proof.
  unfold GeminiService.analyzeObservation.
  destruct (GeminiService.getAIClient host) as [ai |]; [| discriminate].
  destruct (GeminiService.generateContent host ai _) as [text |];
    [| discriminate].
  apply orString_not_empty. discriminate.
Qed.

Lemma getAIClient_without_key (host : GeminiService.Host) :
  truthy (GeminiService.API_KEY host) = false ->
  GeminiService.getAIClient host = Rejected.
Proof.
  unfold GeminiService.getAIClient, truthy.
  destruct (GeminiService.API_KEY host) as [k |]; [| reflexivity].
  intros ->. reflexivity.
Qed.

(** [analyzeObservation] never throws and never resolves to the empty
    string.  Without an API key (undefined or empty) it resolves to the
    fixed failure message whatever the remote model would answer, and so it
    does when the call rejects; when the response has no text, or an empty
    one, it resolves to the other fixed message; otherwise to the text of
    the response. *)
Theorem analyzeObservation_always_answers (host : GeminiService.Host)
    (base64Image date location : string) :
  let answer :=
    GeminiService.analyzeObservation host base64Image date location in
  let request :=
    GeminiService.analysisRequest base64Image date location in
  answer <> EmptyString /\
  (truthy (GeminiService.API_KEY host) = false ->
   answer = "暂时无法分析图片，请检查网络或 API Key 设置。"%string) /\
  (forall apiKey : string,
     GeminiService.API_KEY host = Some apiKey ->
     truthyString apiKey = true ->
     match GeminiService.generateContent host apiKey request with
     | Rejected =>
         answer = "暂时无法分析图片，请检查网络或 API Key 设置。"%string
     | Resolved None => answer = "无法生成分析结果。"%string
     | Resolved (Some text) =>
         if truthyString text then answer = text
         else answer = "无法生成分析结果。"%string
     end).
Proof.
  intros answer request.
  split; [apply analyzeObservation_not_empty |]. split.
  - intros H. unfold answer, GeminiService.analyzeObservation.
    rewrite (getAIClient_without_key host H). reflexivity.
  - intros apiKey Hk Ht.
    unfold answer, GeminiService.analyzeObservation,
      GeminiService.getAIClient.
    rewrite Hk, Ht. fold request.
    destruct (GeminiService.generateContent host apiKey request)
      as [[text |] |]; try reflexivity.
    unfold orString. destruct (truthyString text); reflexivity.
Qed.

Lemma analyzeObservation_always_answers_witness :
  let host :=
    GeminiService.mkHost None (fun _ _ => Resolved (Some "满月"%string)) in
  truthy (GeminiService.API_KEY host) = false /\
  GeminiService.analyzeObservation host "data:image/png;base64,AAAA"
    "2024-01-21" "北京, 中国" =
  "暂时无法分析图片，请检查网络或 API Key 设置。"%string.
Proof.
  intros host.
  assert (H : truthy (GeminiService.API_KEY host) = false) by reflexivity.
  split; [exact H |].
  exact (proj1 (proj2 (analyzeObservation_always_answers host
                         "data:image/png;base64,AAAA" "2024-01-21"
                         "北京, 中国")) H).
Defined.

Lemma getMoonTrivia_not_empty (host : GeminiService.Host)
    (phaseName : string) :
  GeminiService.getMoonTrivia host phaseName <> EmptyString.
Proof.
  unfold GeminiService.getMoonTrivia.
  destruct (GeminiService.getAIClient host) as [ai |]; [| discriminate].
  destruct (GeminiService.generateContent host ai _) as [text |];
    [| discriminate].
  apply orString_not_empty. discriminate.
Qed.

(** The trivia shown is never empty: [getMoonTrivia] never throws and never
    resolves to the empty string, and the effect of [App] that follows a
    change of date or location always leaves a non-empty [trivia] next to
    the new snapshot.  Without an API key, or when the call rejects, the
    trivia is the fixed sentence about the receding moon. *)
Theorem trivia_never_empty (timezoneOffset : Z) (host : GeminiService.Host)
    (currentDate : Date) (location : LocationData.t) :
  let update := updateMoonData timezoneOffset host currentDate location in
  fst update =
    getMoonData timezoneOffset currentDate
      (LocationData.lat location) (LocationData.lng location) /\
  snd update <> EmptyString /\
  (forall phaseName : string,
     GeminiService.getMoonTrivia host phaseName <> EmptyString) /\
  (truthy (GeminiService.API_KEY host) = false \/
   (forall (apiKey : string) (request : GeminiService.Request),
      GeminiService.generateContent host apiKey request = Rejected) ->
   snd update = "月球每年大约远离地球 3.8 厘米。"%string).
Proof.
  intros update.
  split; [reflexivity |].
  split; [apply getMoonTrivia_not_empty |].
  split; [apply getMoonTrivia_not_empty |].
  intros H. unfold update, updateMoonData. cbn [snd].
  unfold GeminiService.getMoonTrivia.
  destruct H as [H | H].
  - rewrite (getAIClient_without_key host H). reflexivity.
  - destruct (GeminiService.getAIClient host) as [ai |]; [| reflexivity].
    rewrite H. reflexivity.
Qed.

Lemma trivia_never_empty_witness :
  let host :=
    GeminiService.mkHost (Some "key"%string) (fun _ _ => Rejected) in
  (forall (apiKey : string) (request : GeminiService.Request),
     GeminiService.generateContent host apiKey request = Rejected) /\
  snd (updateMoonData (-480) host (mkDate 1705924627200)
         (LocationData.mk 39.9042 116.4074 "北京, 中国")) =
  "月球每年大约远离地球 3.8 厘米。"%string.
Proof.
  intros host.
  assert (H : forall (apiKey : string) (request : GeminiService.Request),
            GeminiService.generateContent host apiKey request = Rejected)
    by reflexivity.
  split; [exact H |].
  apply (proj2 (proj2 (proj2 (trivia_never_empty (-480) host
                                (mkDate 1705924627200)
                                (LocationData.mk 39.9042 116.4074
                                   "北京, 中国"))))).
  right. exact H.
Defined.

(** ** The form and the log book *)

(** Analysing the image and then submitting.  With an image chosen, the
    answer of [analyzeObservation] is saved as the log's [aiAnalysis] and
    is appended to the notes under the AI heading, whatever the answer is:
    a failure message is saved like an analysis.  When the notes were empty
    the answer was also copied into them, so the saved notes contain the
    answer twice. *)
Theorem analysis_then_submit (host : GeminiService.Host)
    (st : LogForm.State) (img : string) (now : Z) :
  LogForm.image st = Some img -> truthyString img = true ->
  let answer :=
    GeminiService.analyzeObservation host img
      (LogForm.date st) (LogForm.loc st) in
  let log := LogForm.handleSubmit now (LogForm.handleAIAnalysis host st) in
  ObservationLog.aiAnalysis log = Some answer /\
  ObservationLog.imageUrl log = Some img /\
  (LogForm.notes st = EmptyString ->
   ObservationLog.notes log =
   (answer ++ LF ++ LF ++ "[AI 智能分析]: " ++ answer)%string) /\
  (LogForm.notes st <> EmptyString ->
   ObservationLog.notes log =
   (LogForm.notes st ++ LF ++ LF ++ "[AI 智能分析]: " ++ answer)%string) /\
  (truthy (GeminiService.API_KEY host) = false ->
   ObservationLog.aiAnalysis log =
   Some "暂时无法分析图片，请检查网络或 API Key 设置。"%string).
Proof.
  intros Himg Ht answer log.
  pose proof (analyzeObservation_not_empty host img (LogForm.date st)
                (LogForm.loc st)) as Hne.
  fold answer in Hne. apply truthyString_true in Hne.
  assert (Hlog : log =
    LogForm.handleSubmit now
      {| LogForm.date := LogForm.date st; LogForm.time := LogForm.time st;
         LogForm.weather := LogForm.weather st; LogForm.loc := LogForm.loc st;
         LogForm.notes :=
           if truthyString (LogForm.notes st) then LogForm.notes st
           else answer;
         LogForm.image := LogForm.image st;
         LogForm.isAnalyzing := false;
         LogForm.aiResult := Some answer |}).
  { unfold log, LogForm.handleAIAnalysis. rewrite Himg, Ht. reflexivity. }
  rewrite Hlog. unfold LogForm.handleSubmit.
  cbn [ObservationLog.aiAnalysis ObservationLog.imageUrl ObservationLog.notes
       LogForm.aiResult LogForm.image LogForm.notes].
  unfold orUndefined, truthy. rewrite Himg, Ht, Hne.
  split; [reflexivity |]. split; [reflexivity |].
  split; [| split].
  - intros ->. reflexivity.
  - intros Hn. apply truthyString_true in Hn. rewrite Hn. reflexivity.
  - intros Hk. f_equal. unfold answer, GeminiService.analyzeObservation.
    rewrite (getAIClient_without_key host Hk). reflexivity.
Qed.

Lemma analysis_then_submit_witness :
  let host :=
    GeminiService.mkHost None (fun _ _ => Resolved (Some "满月"%string)) in
  let st :=
    LogForm.mkState "2024-01-21" "21:30" "晴朗" "北京, 中国" EmptyString
      (Some "data:image/png;base64,AAAA"%string) false None in
  LogForm.image st = Some "data:image/png;base64,AAAA"%string /\
  truthyString "data:image/png;base64,AAAA" = true /\
  ObservationLog.notes
    (LogForm.handleSubmit 1705872600000 (LogForm.handleAIAnalysis host st)) =
  ("暂时无法分析图片，请检查网络或 API Key 设置。" ++ LF ++ LF ++
   "[AI 智能分析]: " ++
   "暂时无法分析图片，请检查网络或 API Key 设置。")%string.
Proof.
  intros host st.
  assert (Hi : LogForm.image st = Some "data:image/png;base64,AAAA"%string)
    by reflexivity.
  assert (Ht : truthyString "data:image/png;base64,AAAA" = true)
    by reflexivity.
  split; [exact Hi |]. split; [exact Ht |].
  destruct (analysis_then_submit host st "data:image/png;base64,AAAA"
              1705872600000 Hi Ht) as (_ & _ & Hn & _).
  rewrite (Hn eq_refl). reflexivity.
Defined.

Lemma append_empty_r (s : string) : (s ++ EmptyString)%string = s.
Proof. induction s as [| a s IH]; simpl; [| rewrite IH]; reflexivity. Qed.

(** Choosing another image after an analysis clears the analysis but not
    the notes.  If the notes were empty when the first image was analysed,
    a log submitted after a second image was chosen carries the second
    image, no [aiAnalysis], and as its notes the answer about the first
    image. *)
Theorem new_image_keeps_old_answer (host : GeminiService.Host)
    (st : LogForm.State) (img img2 : string) (now : Z) :
  LogForm.image st = Some img -> truthyString img = true ->
  truthyString img2 = true ->
  LogForm.notes st = EmptyString ->
  let answer :=
    GeminiService.analyzeObservation host img
      (LogForm.date st) (LogForm.loc st) in
  let log :=
    LogForm.handleSubmit now
      (LogForm.handleImageUpload (LogForm.handleAIAnalysis host st)
         (Some img2)) in
  ObservationLog.imageUrl log = Some img2 /\
  ObservationLog.aiAnalysis log = None /\
  ObservationLog.notes log = answer.
Proof.
  intros Himg Ht Ht2 Hnotes answer log.
  unfold log, LogForm.handleAIAnalysis. rewrite Himg, Ht, Hnotes.
  unfold LogForm.handleImageUpload, LogForm.handleSubmit.
  cbn [ObservationLog.aiAnalysis ObservationLog.imageUrl ObservationLog.notes
       LogForm.aiResult LogForm.image LogForm.notes truthyString].
  unfold orUndefined, truthy. rewrite Ht2.
  split; [reflexivity |]. split; [reflexivity |].
  apply append_empty_r.
Qed.

Lemma new_image_keeps_old_answer_witness :
  let host :=
    GeminiService.mkHost (Some "key"%string)
      (fun _ _ => Resolved (Some "满月"%string)) in
  let st :=
    LogForm.mkState "2024-01-21" "21:30" "晴朗" "北京, 中国" EmptyString
      (Some "data:image/png;base64,AAAA"%string) false None in
  (LogForm.image st = Some "data:image/png;base64,AAAA"%string /\
   truthyString "data:image/png;base64,AAAA" = true /\
   truthyString "data:image/png;base64,BBBB" = true /\
   LogForm.notes st = EmptyString) /\
  ObservationLog.notes
    (LogForm.handleSubmit 1705872600000
       (LogForm.handleImageUpload (LogForm.handleAIAnalysis host st)
          (Some "data:image/png;base64,BBBB"%string))) = "满月"%string.
Proof.
  intros host st.
  split; [repeat split |].
  destruct (new_image_keeps_old_answer host st "data:image/png;base64,AAAA"
              "data:image/png;base64,BBBB" 1705872600000
              eq_refl eq_refl eq_refl eq_refl) as (_ & _ & Hn).
  rewrite Hn. reflexivity.
Defined.

(** Saving logs one after another never loses one: after the saves the list
    is the saved logs, newest first, in front of the logs there were; every
    earlier log is still in it; and once a log has been saved the list
    written to the local storage is the whole list in memory and the view
    is the log book. *)
Theorem saved_logs_accumulate (book : LogBook)
    (saves : list ObservationLog.t) :
  let book' := fold_left handleSaveLog saves book in
  logs book' = (rev saves ++ logs book)%list /\
  (forall l, In l (logs book) -> In l (logs book')) /\
  (saves <> [] ->
   lunaLogs book' = Some (logs book') /\ view book' = ViewLogs).
Proof.
  revert book. induction saves as [| log saves IH]; intros book book'.
  - split; [reflexivity |]. split; [tauto |]. intros H. congruence.
  - unfold book'. cbn [fold_left].
    destruct (IH (handleSaveLog book log)) as (Hl & Hin & Hst).
    split; [| split].
    + rewrite Hl. cbn [handleSaveLog logs rev].
      rewrite <- app_assoc. reflexivity.
    + intros l H. apply Hin. cbn [handleSaveLog logs]. right. exact H.
    + intros _. destruct saves as [| log2 saves].
      * split; reflexivity.
      * apply Hst. discriminate.
Qed.

Lemma saved_logs_accumulate_witness :
  let log :=
    LogForm.handleSubmit 1705872600000
      (LogForm.mkState "2024-01-21" "21:30" "晴朗" "北京, 中国" "薄云"
         None false None) in
  let book := fold_left handleSaveLog [log] (mkLogBook [] ViewAddLog None) in
  [log] <> [] /\ lunaLogs book = Some [log] /\ view book = ViewLogs.
Proof.
  intros log book.
  assert (H : [log] <> []) by discriminate.
  split; [exact H |].
  destruct (saved_logs_accumulate (mkLogBook [] ViewAddLog None) [log])
    as (Hl & _ & Hs).
  destruct (Hs H) as (Hs1 & Hs2).
  split; [| exact Hs2].
  unfold book. rewrite Hs1, Hl. reflexivity.
Defined.

(** ** The calculator and the silhouette inside the app *)

(** The app hands the silhouette generator the phase of a snapshot, which
    is already in [0,1): normalising it first would change nothing, and the
    outline is never the empty one that a phase outside [0,1) gets unless
    the phase lies in the new-moon bands. *)
Theorem app_passes_normalised_phase (timezoneOffset : Z) (date : Date)
    (lat lng : R) :
  let m := getMoonData timezoneOffset date lat lng in
  normalize (phase m) = phase m /\
  MoonVisual (normalize (phase m)) = MoonVisual (phase m) /\
  (MoonVisual (phase m) = [] <-> phase m < 0.01 \/ 0.99 < phase m).
Proof.
  intros m.
  pose proof (phase_range timezoneOffset date lat lng) as Hp. fold m in Hp.
  assert (Hn : normalize (phase m) = phase m) by (apply normalize_fixed; lra).
  split; [exact Hn |]. split; [rewrite Hn; reflexivity |].
  split.
  - intros H. destruct (MoonVisual_cases (phase m)) as [Hc | [Hc | Hc]].
    + exact Hc.
    + rewrite MoonVisual_full_moon in H by exact Hc. discriminate H.
    + rewrite MoonVisual_general in H by exact Hc. discriminate H.
  - apply MoonVisual_new_moon.
Qed.

(** The two jump buttons of the dashboard.  The button for the next full
    moon moves the current date 1 to 30 days on, to a day whose snapshot is
    named FULL_MOON and has an illuminated fraction above 0.85; the button
    for the next new moon moves it 1 to 30 days on, to a day named NEW_MOON
    with a fraction below 0.15. *)
Theorem jump_buttons_land (timezoneOffset : Z) (currentDate : Date)
    (lat lng : R) :
  let full := jumpToPhase timezoneOffset currentDate lat lng FULL_MOON in
  let new := jumpToPhase timezoneOffset currentDate lat lng NEW_MOON in
  ((getTime currentDate + 86400000 <= getTime full
    <= getTime currentDate + 30 * 86400000)%Z /\
   name (getMoonData timezoneOffset full lat lng) = FULL_MOON /\
   0.85 < fraction (getMoonData timezoneOffset full lat lng)) /\
  ((getTime currentDate + 86400000 <= getTime new
    <= getTime currentDate + 30 * 86400000)%Z /\
   name (getMoonData timezoneOffset new lat lng) = NEW_MOON /\
   fraction (getMoonData timezoneOffset new lat lng) < 0.15).
Proof.
  assert (Hland : forall target,
    let d := jumpToPhase timezoneOffset currentDate lat lng target in
    (getTime currentDate + 86400000 <= getTime d
     <= getTime currentDate + 30 * 86400000)%Z /\
    name (getMoonData timezoneOffset d lat lng) = target).
  { intros target d. unfold d, jumpToPhase.
    pose proof (jumpToPhase_loop_spec timezoneOffset lat lng target 30
                  currentDate) as Hspec.
    destruct (jumpToPhase_loop timezoneOffset lat lng target 30 currentDate)
      as [d' |].
    - destruct Hspec as (k & Hk & Hd & Hn & _).
      split; [| exact Hn]. rewrite Hd. unfold setDatePlus. cbn [getTime].
      lia.
    - exfalso.
      destruct (name_within_30_days timezoneOffset currentDate lat lng target)
        as (i & Hi & Hn).
      apply (Hspec i); [lia | exact Hn]. }
  assert (Hfrac : forall d,
    let m := getMoonData timezoneOffset d lat lng in
    (name m = FULL_MOON -> 0.85 < fraction m) /\
    (name m = NEW_MOON -> fraction m < 0.15)).
  { intros d m.
    pose proof (phase_range timezoneOffset d lat lng) as Hp.
    pose proof (age_eq timezoneOffset d lat lng) as Ha.
    pose proof (fraction_eq timezoneOffset d lat lng) as Hf.
    pose proof (name_eq timezoneOffset d lat lng) as Hn.
    fold m in Hp, Ha, Hf, Hn. unfold SYNODIC_MONTH in Ha.
    pose proof inv_sqrt2_bounds as Hq.
    rewrite Hf, Hn.
    destruct (phaseNameOfAge_cases (age m))
      as [[Hb ->] | [[Hb ->] | [[Hb ->] | [[Hb ->] | [[Hb ->] | [[Hb ->]
         | [[Hb ->] | [[Hb ->] | [Hb ->]]]]]]]]];
      rewrite Ha in Hb; (split; intros Hname; try discriminate Hname).
    - pose proof (cos_turn_near_zero (phase m) ltac:(lra)). lra.
    - pose proof (cos_turn_near_half (phase m) ltac:(lra)). lra.
    - pose proof (cos_turn_near_zero (phase m) ltac:(lra)). lra. }
  intros full new.
  destruct (Hland FULL_MOON) as (Hk1 & Hn1).
  destruct (Hland NEW_MOON) as (Hk2 & Hn2).
  fold full in Hk1, Hn1. fold new in Hk2, Hn2.
  split.
  - split; [exact Hk1 |]. split; [exact Hn1 |].
    apply (proj1 (Hfrac full)). exact Hn1.
  - split; [exact Hk2 |]. split; [exact Hn2 |].
    apply (proj2 (Hfrac new)). exact Hn2.
Qed.

Lemma app_passes_normalised_phase_witness :
  (phase (getMoonData 0 (mkDate 1705060627200) 0 0) < 0.01 \/
   0.99 < phase (getMoonData 0 (mkDate 1705060627200) 0 0)) /\
  MoonVisual (phase (getMoonData 0 (mkDate 1705060627200) 0 0)) = [].
Proof.
  assert (H : phase (getMoonData 0 (mkDate 1705060627200) 0 0) < 0.01 \/
              0.99 < phase (getMoonData 0 (mkDate 1705060627200) 0 0))
    by (rewrite phase_at_reference_new_moon; lra).
  split; [exact H |].
  apply (proj2 (proj2 (app_passes_normalised_phase 0 (mkDate 1705060627200)
                         0 0))).
  exact H.
Defined.
